(** * bills_ocr_b: the upload handler of [main.py]

    A shallow embedding of [clean_ocr_text] and of the [/process-images]
    handler, and the properties of them that the specification states.

    Python [str] values are sequences of Unicode code points: they are
    modelled as [list N], one number per code point, so that [len], slices,
    [str.strip] and the regular expressions of [re] see the same characters
    as the interpreter does. *)

From Stdlib Require Import List NArith ZArith Bool Lia String Ascii.
From Stdlib Require DecimalString DecimalPos DecimalN.
Import ListNotations.

Set Implicit Arguments.

(* ================================================================== *)
(** * Strings *)
(* ================================================================== *)

Abbreviation pystr := (list N).
Abbreviation bytes := (list Byte.byte).

(** A literal of the source (all literals but one are ASCII). *)
Definition lit (s : string) : pystr :=
  List.map N_of_ascii (list_ascii_of_string s).

Definition chr_tab : N := 9.
Definition chr_nl : N := 10.
Definition chr_space : N := 32.
Definition chr_dot : N := 46.
Definition chr_eq : N := 61.

(** [Py_UNICODE_ISSPACE]: the test behind [str.strip()], [str.isspace()]
    and, for [str] patterns, the class [\s] of [re]. *)
Definition isspace (c : N) : bool :=
  ((9 <=? c) && (c <=? 13) || (28 <=? c) && (c <=? 32)
   || (c =? 133) || (c =? 160) || (c =? 5760)
   || (8192 <=? c) && (c <=? 8202)
   || (c =? 8232) || (c =? 8233) || (c =? 8239) || (c =? 8287)
   || (c =? 12288))%N.

(** The class [[ \t]]. *)
Definition isblank (c : N) : bool := ((c =? chr_space) || (c =? chr_tab))%N.
Definition is_nl (c : N) : bool := (c =? chr_nl)%N.
Definition is_dot (c : N) : bool := (c =? chr_dot)%N.

Fixpoint str_eqb (a b : pystr) : bool :=
  match a, b with
  | [], [] => true
  | x :: a', y :: b' => (x =? y)%N && str_eqb a' b'
  | _, _ => false
  end.

(** [s.startswith(p)] *)
Fixpoint startswith (p s : pystr) : bool :=
  match p, s with
  | [], _ => true
  | x :: p', y :: s' => (x =? y)%N && startswith p' s'
  | _ :: _, [] => false
  end.

(** [s.endswith(p)] *)
Definition endswith (p s : pystr) : bool := startswith (rev p) (rev s).

(** [p in s] *)
Fixpoint contains (p s : pystr) : bool :=
  startswith p s || match s with [] => false | _ :: s' => contains p s' end.

Fixpoint dropwhile (f : N -> bool) (s : pystr) : pystr :=
  match s with
  | c :: s' => if f c then dropwhile f s' else s
  | [] => []
  end.

Definition lstrip (s : pystr) : pystr := dropwhile isspace s.
Definition rstrip (s : pystr) : pystr := rev (dropwhile isspace (rev s)).
(** [s.strip()] *)
Definition strip (s : pystr) : pystr := rstrip (lstrip s).

(** [str(n)] for a non-negative [int]. *)
Definition str_of_int (n : N) : pystr :=
  lit (DecimalString.NilZero.string_of_uint (N.to_uint n)).

(* ================================================================== *)
(** * Regular expressions

    The three patterns of [clean_ocr_text] are sequences of character
    classes under [*] and [+].  A pattern is embedded as a backtracking
    matcher in continuation-passing style, which is how [re] runs it:
    a greedy quantifier first takes one more character and gives one back
    only when the rest of the pattern fails. *)
(* ================================================================== *)

Section Matchers.
Variable A : Type.

(** a single character of class [cls] *)
Definition re_one (cls : N -> bool) (k : pystr -> option A) (s : pystr)
  : option A :=
  match s with
  | c :: s' => if cls c then k s' else None
  | [] => None
  end.

(** [cls*], greedy *)
Fixpoint re_star (cls : N -> bool) (k : pystr -> option A) (s : pystr)
  : option A :=
  match s with
  | c :: s' =>
      if cls c then
        match re_star cls k s' with
        | Some r => Some r
        | None => k s
        end
      else k s
  | [] => k s
  end.

(** [cls+], greedy *)
Definition re_plus (cls : N -> bool) (k : pystr -> option A) : pystr -> option A :=
  re_one cls (re_star cls k).

(** a starred class inside a group: the text of the group is handed to
    the continuation *)
Fixpoint re_star_group (cls : N -> bool) (g : pystr)
    (k : pystr -> pystr -> option A) (s : pystr) : option A :=
  match s with
  | c :: s' =>
      if cls c then
        match re_star_group cls (g ++ [c]) k s' with
        | Some r => Some r
        | None => k g s
        end
      else k g s
  | [] => k g s
  end.

(** a group of one or more characters of the class *)
Definition re_plus_group (cls : N -> bool) (k : pystr -> pystr -> option A)
    (s : pystr) : option A :=
  match s with
  | c :: s' => if cls c then re_star_group cls [c] k s' else None
  | [] => None
  end.
End Matchers.

(** A matcher tried at the head of [s] answers with the replacement text
    and the rest of [s] after the match. *)
Definition matcher : Type := pystr -> option (pystr * pystr).

(** [re.sub] and [str.replace]: scan from the left; where the pattern
    matches, emit the replacement and go on after the match; elsewhere copy
    one character.  [skip] counts the characters of the current match that
    are still to be passed over.  (None of the patterns here matches the
    empty string, so the rules of [re] for empty matches play no role.) *)
Fixpoint sub_from (m : matcher) (skip : nat) (s : pystr) : pystr :=
  match s with
  | [] => []
  | c :: s' =>
      match skip with
      | S n => sub_from m n s'
      | O =>
          match m s with
          | Some (repl, rest) =>
              repl ++ sub_from m (List.length s' - List.length rest) s'
          | None => c :: sub_from m 0 s'
          end
      end
  end.

Definition re_sub (m : matcher) (s : pystr) : pystr := sub_from m 0 s.

(** [text.replace(old, new)] for a non-empty [old]. *)
Definition match_literal (old new : pystr) : matcher :=
  fun s => if startswith old s
           then Some (new, skipn (List.length old) s) else None.

Definition replace (old new s : pystr) : pystr :=
  re_sub (match_literal old new) s.

(** [r'[ \t]+'] replaced by [' '] *)
Definition match_blanks : matcher :=
  re_plus isblank (fun rest => Some (lit " ", rest)).

(** [r'\n\s*\n\s*\n'] replaced by ['\n\n'] *)
Definition match_blank_lines : matcher :=
  re_one is_nl (re_star isspace (re_one is_nl (re_star isspace
    (re_one is_nl (fun rest => Some ([chr_nl; chr_nl], rest)))))).

(** [r'(\d+)\.(\d+)'] replaced by [r'\1.\2'].  [isdecimal] is the class
    [\d] (Unicode category Nd). *)
Definition match_decimal (isdecimal : N -> bool) : matcher :=
  re_plus_group isdecimal (fun g1 =>
    re_one is_dot (re_plus_group isdecimal (fun g2 rest =>
      Some (g1 ++ [chr_dot] ++ g2, rest)))).

(* ================================================================== *)
(** * [clean_ocr_text] *)
(* ================================================================== *)

(** The dictionary [replacements], in insertion order. *)
Definition replacements : list (pystr * pystr) :=
  [ (lit "Lable", lit "Label");
    (lit "Chola", lit "Chola");
    (lit "+|bCAmt:+/2" ++ [162%N], lit "SubTotal:");
    (lit "Phn:", lit "Phone:");
    (lit "Qty:", lit "Quantity:");
    (lit "Amt:", lit "Amount:");
    (lit "Cewkehy", lit "Company");
    (lit "Srey", lit "Store") ].

(** [for old, new in replacements.items(): text = text.replace(old, new)] *)
Definition apply_replacements (rs : list (pystr * pystr)) (text : pystr) : pystr :=
  fold_left (fun t r => replace (fst r) (snd r) t) rs text.

Section Normalizer.
Variable isdecimal : N -> bool.

Definition normalize (text : pystr) : pystr :=
  let text := apply_replacements replacements text in
  let text := re_sub match_blanks text in
  let text := re_sub match_blank_lines text in
  let text := re_sub (match_decimal isdecimal) text in
  strip text.

(** The argument is [None] or a [str]; a falsy argument is returned as
    it is. *)
Definition clean_ocr_text (text : option pystr) : option pystr :=
  match text with
  | None => None
  | Some [] => Some []
  | Some t => Some (normalize t)
  end.
End Normalizer.

(* ================================================================== *)
(** * The data of a request *)
(* ================================================================== *)

(** [fastapi.UploadFile]: [filename] and [content_type] are [str | None];
    [contents] is what [await file.read()] returns. *)
Record UploadFile : Type := mkUploadFile {
  filename : option pystr;
  content_type : option pystr;
  contents : bytes
}.

(** An exception raised inside a collaborator (pytesseract, PIL, pdf2image,
    the Gemini client, [json.loads]).  Every one of them is an instance of
    [Exception]; the handler looks at two things only: whether it is a
    [json.JSONDecodeError], and [str(e)]. *)
Record pyerr : Type := mkerr {
  is_JSONDecodeError : bool;
  str_e : pystr
}.

(** The values [json.loads] builds. *)
Unset Elimination Schemes.
Inductive json : Type :=
| JNull
| JBool (b : bool)
| JInt (z : Z)
| JFloat (repr : pystr)
| JString (s : pystr)
| JArray (items : list json)
| JObject (members : list (pystr * json)).
Set Elimination Schemes.

(** What leaves the handler other than by [return]. *)
Inductive exn : Type :=
| HTTPException (status_code : Z) (detail : pystr)
| UnboundLocalError (name : pystr)
| TypeError.

(** The returned dictionary [{"data": structured_data}]. *)
Record response : Type := mkresponse { data : json }.

(** [f"{x}"] for a [str | None]. *)
Definition fmt (x : option pystr) : pystr :=
  match x with
  | Some s => s
  | None => lit "None"
  end.

Definition allowed_types : list pystr :=
  [lit "image/jpeg"; lit "image/png"; lit "application/pdf"].

(** [x in xs] for a [str | None] and a list of [str]. *)
Definition opt_in (x : option pystr) (xs : list pystr) : bool :=
  match x with
  | Some s => existsb (str_eqb s) xs
  | None => false
  end.

Definition opt_eqb (x : option pystr) (s : pystr) : bool :=
  match x with
  | Some t => str_eqb t s
  | None => false
  end.

Definition nl : pystr := [chr_nl].
(** ['='*60] *)
Definition rule : pystr := repeat chr_eq 60.

(** The three lines added before a file is read by OCR. *)
Definition header (bill_counter : N) : pystr :=
  (nl ++ nl ++ rule ++ nl)
  ++ (lit "BILL NUMBER " ++ str_of_int bill_counter ++ lit " - START" ++ nl)
  ++ (rule ++ nl ++ nl).

(** The three lines added after it. *)
Definition footer (bill_counter : N) : pystr :=
  (nl ++ rule ++ nl)
  ++ (lit "BILL NUMBER " ++ str_of_int bill_counter ++ lit " - END" ++ nl)
  ++ (rule ++ nl ++ nl).

Definition custom_config : pystr :=
  lit "--oem 3 --psm 6 -c tessedit_char_whitelist=0123456789ABCDEFGHIJKLMNOPQRSTUVWXYZabcdefghijklmnopqrstuvwxyz .,/-:()+".
Definition config2 : pystr := lit "--oem 3 --psm 4".
Definition config3 : pystr := lit "--oem 3 --psm 3".

(** [max(x :: xs, key=len)]: the first element of greatest length. *)
Definition max_len (x : pystr) (xs : list pystr) : pystr :=
  fold_left (fun best y => if List.length best <? List.length y then y else best)
            xs x.

Definition placeholder : pystr := lit "__ALL_TEXT_PLACEHOLDER__".
Definition fence_open : pystr := lit "```json".
Definition fence_close : pystr := lit "```".

(** The clean-up of the model's answer between [response.text] and
    [json.loads]. *)
Definition unfence (text : pystr) : pystr :=
  let raw_text := strip text in
  let raw_text :=
    if startswith fence_open raw_text then skipn 7 raw_text else raw_text in
  let raw_text :=
    if endswith fence_close raw_text
    then firstn (List.length raw_text - 3) raw_text else raw_text in
  strip raw_text.

(* ================================================================== *)
(** * The handler

    The collaborators are outside the repository: they are parameters.
    Each call of one takes the state of the outside world and gives a
    result, or the exception it raised, and the next state, so that a
    collaborator may answer differently from one call to the next.  The
    handler's state is that world and the log of the calls made so far.
    [print] writes to the console only and is left out. *)
(* ================================================================== *)

(** A call of a collaborator, with its arguments and what came back. *)
Inductive event (image : Type) : Type :=
| Call_convert_from_bytes (contents : bytes) (result : pyerr + list image)
| Call_Image_open (contents : bytes) (result : pyerr + image)
| Call_image_to_string (img : image) (config : pystr) (result : pyerr + pystr)
| Call_generate_content (prompt : pystr) (result : pyerr + pystr).

Arguments Call_convert_from_bytes {image} contents result.
Arguments Call_Image_open {image} contents result.
Arguments Call_image_to_string {image} img config result.
Arguments Call_generate_content {image} prompt result.

Definition is_ocr_call (image : Type) (ev : event image) : bool :=
  match ev with
  | Call_generate_content _ _ => false
  | _ => true
  end.

Definition is_model_call (image : Type) (ev : event image) : bool :=
  match ev with
  | Call_generate_content _ _ => true
  | _ => false
  end.

Section Handler.
Variable World : Type.
Variable image : Type.

(** [pdf2image.convert_from_bytes(contents)] *)
Variable convert_from_bytes : bytes -> World -> (pyerr + list image) * World.
(** [Image.open(io.BytesIO(contents))] *)
Variable Image_open : bytes -> World -> (pyerr + image) * World.
(** [pytesseract.image_to_string(image, config=config)]; [config] is
    [''] when the argument is left out *)
Variable image_to_string : image -> pystr -> World -> (pyerr + pystr) * World.
(** [model.generate_content(prompt).text] *)
Variable generate_content : pystr -> World -> (pyerr + pystr) * World.
(** [json.loads] *)
Variable json_loads : pystr -> pyerr + json.
(** the class [\d] of [re] *)
Variable isdecimal : N -> bool.
(** the constant [prompt_template] (lines 165 to 241 of [main.py]) *)
Variable prompt_template : pystr.

Definition state : Type := (World * list (event image))%type.
Definition world (st : state) : World := fst st.
Definition log (st : state) : list (event image) := snd st.

(** A computation that raises an [E] or returns an [A]. *)
Definition M (E A : Type) : Type := state -> (E + A) * state.

Definition ret (E A : Type) (a : A) : M E A := fun st => (inr a, st).
Definition raise (E A : Type) (e : E) : M E A := fun st => (inl e, st).
Definition bind (E A B : Type) (c : M E A) (k : A -> M E B) : M E B :=
  fun st =>
    match c st with
    | (inr a, st') => k a st'
    | (inl e, st') => (inl e, st')
    end.

(** [try: c  except Exception as e: raise h(e)] *)
Definition try_except (E A : Type) (c : M pyerr A) (h : pyerr -> E) : M E A :=
  fun st =>
    match c st with
    | (inr a, st') => (inr a, st')
    | (inl e, st') => (inl (h e), st')
    end.

(** One call of a collaborator, written to the log. *)
Definition call (A : Type) (f : World -> (pyerr + A) * World)
    (ev : pyerr + A -> event image) : M pyerr A :=
  fun st =>
    let (r, w) := f (world st) in (r, (w, log st ++ [ev r])).

Arguments ret {E A} a.
Arguments raise {E A} e.
Arguments bind {E A B} c k.
Arguments try_except {E A} c h.
Arguments call {A} f ev.

Notation "x <- c ;; k" := (bind c (fun x => k))
  (at level 61, c at next level, right associativity).

Definition do_convert (contents : bytes) : M pyerr (list image) :=
  call (convert_from_bytes contents) (Call_convert_from_bytes contents).
Definition do_open (contents : bytes) : M pyerr image :=
  call (Image_open contents) (@Call_Image_open image contents).
Definition do_ocr (img : image) (config : pystr) : M pyerr pystr :=
  call (image_to_string img config) (Call_image_to_string img config).
Definition do_generate (prompt : pystr) : M pyerr pystr :=
  call (generate_content prompt) (@Call_generate_content image prompt).

(** [for i, image in enumerate(images): ...] *)
Fixpoint ocr_pages (images : list image) (all_text : pystr) : M pyerr pystr :=
  match images with
  | [] => ret all_text
  | img :: images' =>
      text <- do_ocr img [] ;;
      ocr_pages images' (all_text ++ text ++ nl)
  end.

(** The branch of an image: three runs of OCR, the longest text kept. *)
Definition ocr_image (file : UploadFile) (all_text : pystr) : M pyerr pystr :=
  img <- do_open (contents file) ;;
  text1 <- do_ocr img custom_config ;;
  text2 <- do_ocr img config2 ;;
  text3 <- do_ocr img config3 ;;
  let text := max_len text1 [text2; text3] in
  ret (all_text ++ text ++ nl).

(** The body of the [try] statement inside the loop. *)
Definition extract (file : UploadFile) (all_text : pystr) (bill_counter : N)
  : M pyerr (pystr * N) :=
  all_text <-
    (if opt_eqb (content_type file) (lit "application/pdf") then
       images <- do_convert (contents file) ;;
       ocr_pages images all_text
     else ocr_image file all_text) ;;
  let all_text := all_text ++ footer bill_counter in
  ret (all_text, (bill_counter + 1)%N).

(** [text] is what some run of the [try] body added for [file], between
    the text so far and the closing banner. *)
Definition extracted_as (file : UploadFile) (text : pystr) : Prop :=
  exists all_text n st st',
    extract file all_text n st
    = (inr (all_text ++ text ++ footer n, (n + 1)%N), st').

(** [for file in files: ...], with the two local variables it updates. *)
Fixpoint process_files (files : list UploadFile) (all_text : pystr)
    (bill_counter : N) : M exn (pystr * N) :=
  match files with
  | [] => ret (all_text, bill_counter)
  | file :: files' =>
      if negb (opt_in (content_type file) allowed_types) then
        raise (HTTPException 400
                 (lit "Unsupported file type: " ++ fmt (content_type file)))
      else
        let all_text := all_text ++ header bill_counter in
        r <- try_except (extract file all_text bill_counter)
               (fun e => HTTPException 500
                  (lit "Error processing file " ++ fmt (filename file)
                   ++ lit ": " ++ str_e e)) ;;
        process_files files' (fst r) (snd r)
  end.

(** The last [try] statement: the call of the model and the parsing of
    its answer.  When the call itself raises a [JSONDecodeError], the
    first [except] clause reads [raw_text] before it was ever bound. *)
Definition ask_model (prompt : pystr) : M exn response :=
  fun st =>
    match do_generate prompt st with
    | (inl e, st') =>
        if is_JSONDecodeError e
        then (inl (UnboundLocalError (lit "raw_text")), st')
        else (inl (HTTPException 500
                     (lit "Error processing with Gemini: " ++ str_e e)), st')
    | (inr text, st') =>
        let raw_text := unfence text in
        match json_loads raw_text with
        | inr structured_data => (inr (mkresponse structured_data), st')
        | inl e =>
            if is_JSONDecodeError e
            then (inl (HTTPException 500
                         (lit "Invalid JSON from Gemini: "
                          ++ firstn 200 raw_text
                          ++ lit "... Error: " ++ str_e e)), st')
            else (inl (HTTPException 500
                         (lit "Error processing with Gemini: " ++ str_e e)), st')
        end
    end.

(** The prompt for a text that is not empty. *)
Definition prompt_of (all_text : pystr) : pystr :=
  replace placeholder (normalize isdecimal all_text) prompt_template.

Definition build_prompt (all_text : pystr) : option pystr :=
  match clean_ocr_text isdecimal (Some all_text) with
  | Some cleaned_text => Some (replace placeholder cleaned_text prompt_template)
  | None => None
  end.

(** [async def process_images(files)] *)
Definition process_images (files : list UploadFile) : M exn response :=
  match files with
  | [] => raise (HTTPException 400 (lit "No files provided"))
  | _ :: _ =>
      r <- process_files files [] 1%N ;;
      let all_text := fst r in
      match strip all_text with
      | [] => raise (HTTPException 400 (lit "No text extracted from images"))
      | _ :: _ =>
          match build_prompt all_text with
          | Some prompt => ask_model prompt
          | None => raise TypeError
          end
      end
  end.
End Handler.

(* ================================================================== *)
(** * The start of the module

    What [main.py] does when it is imported, before any request: the
    search for the Tesseract executable and the test of the API key.
    [os.path.exists] and [os.getenv] (read after [load_dotenv()]) are
    parameters, and so is the value [pytesseract.pytesseract.tesseract_cmd]
    has before the module touches it. *)
(* ================================================================== *)

Definition tesseract_paths : list pystr :=
  [ lit "C:\Program Files\Tesseract-OCR\tesseract.exe";
    lit "C:\Program Files (x86)\Tesseract-OCR\tesseract.exe";
    lit "/usr/bin/tesseract";
    lit "/usr/local/bin/tesseract" ].

(** The [for ... else] statement over the paths: the path at which the
    loop breaks, or [None] when the loop runs to its end and the [else]
    branch prints the warning. *)
Fixpoint first_existing (path_exists : pystr -> bool) (paths : list pystr)
  : option pystr :=
  match paths with
  | [] => None
  | path :: paths' =>
      if path_exists path then Some path
      else first_existing path_exists paths'
  end.

(** What the module has set up once it is imported. *)
Record Settings : Type := mkSettings {
  tesseract_cmd : pystr;
  warning_printed : bool;
  gemini_api_key : pystr;
  model_name : pystr
}.

(** The import of the module: the settings, or the [Exception] raised for
    a key that is not set. *)
Definition startup (path_exists : pystr -> bool)
    (getenv : pystr -> option pystr) (tesseract_cmd0 : pystr)
  : pyerr + Settings :=
  let found := first_existing path_exists tesseract_paths in
  let cmd := match found with Some path => path | None => tesseract_cmd0 end in
  let warned := match found with Some _ => false | None => true end in
  match getenv (lit "GEMINI_API_KEY") with
  | None | Some [] =>
      inl (mkerr false (lit "GEMINI_API_KEY environment variable not set. Please check your .env file or environment variables."))
  | Some api_key =>
      inr (mkSettings cmd warned api_key (lit "gemini-2.5-flash-lite"))
  end.

(* ================================================================== *)
(** * A small world to run the handler in *)
(* ================================================================== *)

Definition ascii_digit (c : N) : bool := ((48 <=? c) && (c <=? 57))%N.

Module Demo.
(** An image is its bytes; OCR reads each byte as one character; an empty
    upload is not an image. *)
Definition text_of (b : bytes) : pystr := List.map Byte.to_N b.
Definition bytes_of (s : string) : bytes := list_byte_of_string s.

Definition convert_from_bytes (c : bytes) (w : unit) : (pyerr + list bytes) * unit :=
  (inr [c], w).
Definition Image_open (c : bytes) (w : unit) : (pyerr + bytes) * unit :=
  match c with
  | [] => (inl (mkerr false (lit "cannot identify image file")), w)
  | _ :: _ => (inr c, w)
  end.
(** the second configuration reads one more character than the others *)
Definition image_to_string (img : bytes) (config : pystr) (w : unit)
  : (pyerr + pystr) * unit :=
  (inr (if str_eqb config config2 then text_of img ++ lit "." else text_of img), w).
(** an OCR engine that finds no text at all *)
Definition image_to_nothing (img : bytes) (config : pystr) (w : unit)
  : (pyerr + pystr) * unit := (inr [], w).
Definition generate_content (answer : pystr) (prompt : pystr) (w : unit)
  : (pyerr + pystr) * unit := (inr answer, w).
(** a parser that knows three documents *)
Definition json_loads (s : pystr) : pyerr + json :=
  if str_eqb s (lit "[]") then inr (JArray [])
  else if str_eqb s (lit "null") then inr JNull
  else if str_eqb s (lit "{}") then inr (JObject [])
  else inl (mkerr true (lit "Expecting value: line 1 column 1 (char 0)")).

Definition template : pystr := lit "Text to process: __ALL_TEXT_PLACEHOLDER__".

Definition png (name content : string) : UploadFile :=
  mkUploadFile (Some (lit name)) (Some (lit "image/png")) (bytes_of content).
Definition pdf (name content : string) : UploadFile :=
  mkUploadFile (Some (lit name)) (Some (lit "application/pdf")) (bytes_of content).
Definition txt (name content : string) : UploadFile :=
  mkUploadFile (Some (lit name)) (Some (lit "text/plain")) (bytes_of content).

Definition files_loop :=
  process_files convert_from_bytes Image_open image_to_string.
Definition extract_one :=
  extract convert_from_bytes Image_open image_to_string.

Definition two_bills : list UploadFile :=
  [png "a.png" "Rice 50"; pdf "b.pdf" "Oil 150"].
(** a request whose second file is not of an allowed type *)
Definition mixed : list UploadFile :=
  [png "a.png" "Rice 50"; txt "notes.txt" "hello"; pdf "b.pdf" "Oil 150"].
(** a request whose second file cannot be opened *)
Definition broken : list UploadFile :=
  [png "a.png" "Rice 50"; png "empty.png" ""; png "c.png" "Tea 30"].
(** a request of one PDF whose only page reads as the opening banner of
    a second bill *)
Definition bill_in_bill : list UploadFile :=
  [pdf "b.pdf" "BILL NUMBER 2 - START"].
(** a request of one image in which OCR finds nothing *)
Definition blank_request : list UploadFile := [png "blank.png" "x"].

(** a text with tabs, runs of spaces and five newlines in a row *)
Definition smudged : pystr :=
  lit "Qty:" ++ [chr_tab; chr_space] ++ lit "3"
  ++ [chr_nl; chr_nl; chr_tab; chr_nl; chr_nl; chr_nl]
  ++ lit " Amt:  1.50  ".

Definition fenced_answer : pystr :=
  lit "```json" ++ nl ++ lit "[]" ++ nl ++ lit "```".
Definition bad_answer : pystr := lit "Sorry, no items.".

(** a call of OCR that came back with the empty string, or another call *)
Definition read_nothing (ev : event bytes) : bool :=
  match ev with
  | Call_image_to_string _ _ (inr []) => true
  | Call_image_to_string _ _ _ => false
  | _ => true
  end.

Definition run (answer : pystr) (files : list UploadFile)
  : (exn + response) * (unit * list (event bytes)) :=
  process_images convert_from_bytes Image_open image_to_string
    (generate_content answer) json_loads ascii_digit template files (tt, []).

Definition run_blank (answer : pystr) (files : list UploadFile)
  : (exn + response) * (unit * list (event bytes)) :=
  process_images convert_from_bytes Image_open image_to_nothing
    (generate_content answer) json_loads ascii_digit template files (tt, []).
(** a model whose call raises [e] *)
Definition generate_failing (e : pyerr) (prompt : pystr) (w : unit)
  : (pyerr + pystr) * unit := (inl e, w).
Definition quota_error : pyerr := mkerr false (lit "429 quota exceeded").
Definition decode_error : pyerr :=
  mkerr true (lit "Expecting value: line 1 column 1 (char 0)").
(** an answer between fences without the tag *)
Definition plain_fenced_answer : pystr :=
  lit "```" ++ nl ++ lit "[]" ++ nl ++ lit "```".

Definition run_failing (e : pyerr) (files : list UploadFile)
  : (exn + response) * (unit * list (event bytes)) :=
  process_images convert_from_bytes Image_open image_to_string
    (generate_failing e) json_loads ascii_digit template files (tt, []).
End Demo.

(* ================================================================== *)
(** * Vocabulary of the proofs *)
(* ================================================================== *)

(** A matcher that, where it matches, takes at least one character. *)
Definition consuming (m : matcher) : Prop :=
  forall s repl rest, m s = Some (repl, rest) ->
    exists mt, mt <> [] /\ s = mt ++ rest.

(** One of the two strings starts with the other. *)
Definition comparable (x y : pystr) : bool := startswith x y || startswith y x.

(** No non-empty tail of [key] is comparable with [new]: an occurrence of
    [key] cannot begin before an inserted [new] and run into it. *)
Fixpoint no_clash_l (key new : pystr) : bool :=
  match key with
  | [] => true
  | _ :: key' => negb (comparable key new) && no_clash_l key' new
  end.

(** [key] is comparable with no non-empty tail of [new]: an occurrence of
    [key] cannot begin inside an inserted [new]. *)
Fixpoint no_clash_r (key new : pystr) : bool :=
  match new with
  | [] => true
  | _ :: new' => negb (comparable key new) && no_clash_r key new'
  end.

Definition no_clash (key new : pystr) : bool :=
  no_clash_l key new && no_clash_r key new.

(** A replacement [r] that can never bring [key] into a text. *)
Definition harmless (key : pystr) (r : pystr * pystr) : bool :=
  str_eqb (fst r) (snd r) || no_clash key (snd r).

Definition nonempty (s : pystr) : bool :=
  match s with [] => false | _ :: _ => true end.

(** Every entry of the table is the identity, or removes its key for good:
    neither itself nor a later entry brings the key back. *)
Fixpoint stable_table (rs : list (pystr * pystr)) : bool :=
  match rs with
  | [] => true
  | r :: rs' =>
      nonempty (fst r)
      && (str_eqb (fst r) (snd r)
          || (no_clash (fst r) (snd r) && forallb (harmless (fst r)) rs'))
      && stable_table rs'
  end.

(** No entry of the table has anything to do in [s]. *)
Definition settled (rs : list (pystr * pystr)) (s : pystr) : Prop :=
  Forall (fun r => fst r = snd r \/ contains (fst r) s = false) rs.

Definition no_space (key : pystr) : bool :=
  forallb (fun c => negb (isspace c)) key.

(** The keys of the table are non-empty and hold no whitespace. *)
Definition plain_keys (rs : list (pystr * pystr)) : bool :=
  forallb (fun r => nonempty (fst r) && no_space (fst r)) rs.

Definition head_blank (s : pystr) : bool :=
  match s with c :: _ => isblank c | [] => false end.

(** Every blank is a single space between two characters that are not
    blanks (or at an end of the text). *)
Fixpoint single_spaced (s : pystr) : bool :=
  match s with
  | [] => true
  | c :: s' =>
      (if isblank c then (c =? chr_space)%N && negb (head_blank s') else true)
      && single_spaced s'
  end.

(** The number of newlines in the run of whitespace [s] starts with. *)
Fixpoint nlws (s : pystr) : nat :=
  match s with
  | c :: s' =>
      if isspace c then (if is_nl c then 1 else 0) + nlws s' else 0
  | [] => 0
  end.

(** No run of whitespace holds more than two newlines. *)
Fixpoint two_newlines (s : pystr) : bool :=
  match s with
  | [] => true
  | _ :: s' => (nlws s <=? 2) && two_newlines s'
  end.

(** What a tail of the pattern that still asks for [n] newlines does on
    the text [t]: it fails when the whitespace [t] starts with has fewer;
    else it stops behind the last newline of that whitespace. *)
Definition asks_newlines (n : nat) (k : matcher) : Prop :=
  forall t,
    match k t with
    | None => nlws t < n
    | Some (r, rest) =>
        r = [chr_nl; chr_nl] /\ n <= nlws t
        /\ match n with
           | O => rest = t
           | S _ => nlws rest = 0 /\ exists mt, mt <> [] /\ t = mt ++ rest
           end
    end.

(** A matcher that takes whitespace and gives whitespace. *)
Definition space_matcher (m : matcher) : Prop :=
  forall s repl rest, m s = Some (repl, rest) ->
    repl <> [] /\ forallb isspace repl = true.

(** What the specification asks of a request with a file of a type that is
    not allowed: the error 400, and no call of OCR or of the conversion of
    a PDF in the log. *)
Definition rejected_before_ocr (World image : Type)
    (res : (exn + response) * state World image) : Prop :=
  (exists detail, fst res = inl (HTTPException 400 detail))
  /\ forallb (fun ev => negb (is_ocr_call ev)) (log (snd res)) = true.

(** A computation that calls OCR, [Image.open] and the conversion of a PDF
    only: what it adds to the log are such calls. *)
Definition ocr_only (World image E A : Type) (c : M World image E A) : Prop :=
  forall st r st', c st = (r, st') ->
    exists evs, log st' = log st ++ evs /\ forallb (@is_ocr_call image) evs = true.

(** [s.split()]: the maximal runs of characters that are not whitespace,
    from the left; [cur] is the run being read. *)
Definition emit (cur : pystr) : list pystr :=
  match cur with [] => [] | _ :: _ => [cur] end.

Fixpoint words_from (cur s : pystr) : list pystr :=
  match s with
  | [] => emit cur
  | c :: s' =>
      if isspace c then emit cur ++ words_from [] s'
      else words_from (cur ++ [c]) s'
  end.

Definition words (s : pystr) : list pystr := words_from [] s.

(** A matcher whose matched text is whitespace. *)
Definition space_taking (m : matcher) : Prop :=
  forall s repl rest, m s = Some (repl, rest) ->
    exists mt, mt <> [] /\ s = mt ++ rest /\ forallb isspace mt = true.

(** The keys and the replacements of the table are non-empty and hold no
    whitespace. *)
Definition plain_table (rs : list (pystr * pystr)) : bool :=
  forallb (fun r => nonempty (fst r) && no_space (fst r)
                    && nonempty (snd r) && no_space (snd r)) rs.

(** The calls of OCR on the pages of a PDF, each with what it read. *)
Definition page_calls (image : Type) (images : list image)
    (texts : list pystr) : list (event image) :=
  List.map (fun p => Call_image_to_string (fst p) [] (inr (snd p)))
           (combine images texts).

(** [evs] are the calls of a file that was extracted: for a file whose
    content type is [application/pdf], the conversion of its bytes and one
    run of OCR per page; for any other file, the opening of its bytes and
    the three runs of OCR on the image. *)
Definition calls_of (image : Type) (file : UploadFile)
    (evs : list (event image)) : Prop :=
  if opt_eqb (content_type file) (lit "application/pdf") then
    exists images texts,
      List.length texts = List.length images
      /\ evs = Call_convert_from_bytes (contents file) (inr images)
               :: page_calls images texts
  else
    exists img text1 text2 text3,
      evs = [Call_Image_open (contents file) (inr img);
             Call_image_to_string img custom_config (inr text1);
             Call_image_to_string img config2 (inr text2);
             Call_image_to_string img config3 (inr text3)].

(** The words of a banner of the kind START or END. *)
Definition banner_words (kind : pystr) (n : N) : list pystr :=
  [rule; lit "BILL"; lit "NUMBER"; str_of_int n; lit "-"; kind; rule].

(** The words of the cleaned text of a request whose files gave [texts]:
    block after block, the words of the START banner, the words of the
    text with the replacements applied, the words of the END banner. *)
Fixpoint framed_words (n : N) (texts : list pystr) : list pystr :=
  match texts with
  | [] => []
  | t :: texts' =>
      banner_words (lit "START") n
      ++ List.map (apply_replacements replacements) (words t)
      ++ banner_words (lit "END") n
      ++ framed_words (n + 1) texts'
  end.

(** No key of the table starts with a digit. *)
Definition keys_start_without_digit (rs : list (pystr * pystr)) : bool :=
  forallb (fun r => match fst r with
                    | c :: _ => negb ((48 <=? c) && (c <=? 57))%N
                    | [] => false
                    end) rs.

(** The text the loop has built after [texts] were extracted, the first
    of them under the bill number [n]. *)
Fixpoint framed (n : N) (texts : list pystr) : pystr :=
  match texts with
  | [] => []
  | t :: texts' => header n ++ t ++ footer n ++ framed (n + 1) texts'
  end.

(** [s.split('\n')]: the lines of a text; [cur] is the line being read. *)
Fixpoint lines_from (cur s : pystr) : list pystr :=
  match s with
  | [] => [cur]
  | c :: s' =>
      if is_nl c then cur :: lines_from [] s'
      else lines_from (cur ++ [c]) s'
  end.

Definition lines (s : pystr) : list pystr := lines_from [] s.

(** A text without a newline. *)
Definition one_line (x : pystr) : Prop :=
  forallb (fun c => negb (is_nl c)) x = true.

(** The banner lines of a text: its lines that hold [BILL NUMBER ],
    in the order of the text. *)
Definition bill_marker : pystr := lit "BILL NUMBER ".
Definition is_banner (line : pystr) : bool := contains bill_marker line.
Definition banner_lines (s : pystr) : list pystr :=
  filter is_banner (lines s).

(** The line [BILL NUMBER <n> - START] and the line [BILL NUMBER <n> - END]. *)
Definition start_banner (n : N) : pystr :=
  lit "BILL NUMBER " ++ str_of_int n ++ lit " - START".
Definition end_banner (n : N) : pystr :=
  lit "BILL NUMBER " ++ str_of_int n ++ lit " - END".

(** The banners of [k] bills numbered from [n] on: START [n], END [n],
    START [n + 1], END [n + 1], and so on. *)
Fixpoint bill_banners (n : N) (k : nat) : list pystr :=
  match k with
  | O => []
  | S k' => start_banner n :: end_banner n :: bill_banners (n + 1) k'
  end.

(** The banner lines of the text built from [texts]: around the banner
    lines of each text, the two banners of its bill. *)
Fixpoint framed_banners (n : N) (texts : list pystr) : list pystr :=
  match texts with
  | [] => []
  | t :: texts' =>
      start_banner n :: banner_lines t
      ++ end_banner n :: framed_banners (n + 1) texts'
  end.

(** The texts that OCR returned in the calls [evs]. *)
Definition ocr_texts (image : Type) (evs : list (event image)) : list pystr :=
  flat_map (fun ev => match ev with
                      | Call_image_to_string _ _ (inr text) => [text]
                      | _ => []
                      end) evs.

(* ================================================================== *)
(** * Strings: prefixes and occurrences *)
(* ================================================================== *)

Unset Implicit Arguments.

Lemma startswith_iff (p s : pystr) :
  startswith p s = true <-> exists r, s = p ++ r.
Proof.
  revert s; induction p as [|x p IH]; intros s; simpl.
  - split; [intros _; now exists s | reflexivity].
  - destruct s as [|y s]; simpl.
    + split; [discriminate | intros [r H]; discriminate].
    + rewrite andb_true_iff, N.eqb_eq, IH. split.
      * intros [-> [r ->]]. now exists r.
      * intros [r H]. injection H as -> ->. split; [reflexivity | now exists r].
Qed.

Lemma startswith_app (p r : pystr) : startswith p (p ++ r) = true.
Proof. apply startswith_iff. now exists r. Qed.

Lemma startswith_nil_r (p : pystr) : startswith p [] = negb (nonempty p).
Proof. now destruct p. Qed.

Lemma startswith_skipn (p s : pystr) :
  startswith p s = true -> s = p ++ skipn (List.length p) s.
Proof.
  intros H. apply startswith_iff in H as [r ->].
  now rewrite skipn_app, skipn_all, Nat.sub_diag.
Qed.

(** A prefix of [a ++ b] lies within [a] or covers it. *)
Lemma startswith_app_cases (p a b : pystr) :
  startswith p (a ++ b) = true -> comparable p a = true.
Proof.
  unfold comparable. revert a; induction p as [|x p IH]; intros a H; simpl.
  - reflexivity.
  - destruct a as [|y a]; simpl in *.
    + reflexivity.
    + apply andb_true_iff in H as [E H]. apply N.eqb_eq in E as ->.
      rewrite !N.eqb_refl. simpl. now apply IH.
Qed.

Lemma str_eqb_eq (a b : pystr) : str_eqb a b = true <-> a = b.
Proof.
  revert b; induction a as [|x a IH]; intros [|y b]; simpl;
    try (split; now intros).
  rewrite andb_true_iff, N.eqb_eq, IH. split.
  - now intros [-> ->].
  - intros H. now injection H.
Qed.

Lemma contains_iff (p s : pystr) :
  contains p s = true <-> exists a b, s = a ++ p ++ b.
Proof.
  induction s as [|c s IH]; simpl.
  - rewrite orb_false_r, startswith_iff. split.
    + intros [r H]. now exists [], r.
    + intros [a [b H]]. destruct a; simpl in H; [now exists b | discriminate].
  - rewrite orb_true_iff, startswith_iff, IH. split.
    + intros [[r H] | [a [b H]]].
      * now exists [], r.
      * exists (c :: a), b. now rewrite H.
    + intros [[|x a] [b H]]; simpl in H.
      * left. now exists b.
      * right. injection H as _ ->. now exists a, b.
Qed.

Lemma contains_app_r (p a s : pystr) :
  contains p s = true -> contains p (a ++ s) = true.
Proof.
  rewrite !contains_iff. intros [u [v ->]]. exists (a ++ u), v.
  now rewrite <- app_assoc.
Qed.

Lemma contains_app_l (p s b : pystr) :
  contains p s = true -> contains p (s ++ b) = true.
Proof.
  rewrite !contains_iff. intros [u [v ->]]. exists u, (v ++ b).
  now rewrite <- !app_assoc.
Qed.

Lemma contains_cons (p : pystr) (c : N) (s : pystr) :
  contains p (c :: s) = startswith p (c :: s) || contains p s.
Proof. reflexivity. Qed.

Lemma contains_nil_r (p : pystr) : contains p [] = negb (nonempty p).
Proof. simpl. rewrite orb_false_r. apply startswith_nil_r. Qed.

(* ================================================================== *)
(** * [re.sub]: how the scan unfolds *)
(* ================================================================== *)

Lemma sub_from_skip (m : matcher) (a r : pystr) :
  sub_from m (List.length a) (a ++ r) = sub_from m 0 r.
Proof. induction a as [|c a IH]; simpl; [reflexivity | exact IH]. Qed.

Lemma re_sub_miss (m : matcher) (c : N) (s : pystr) :
  m (c :: s) = None -> re_sub m (c :: s) = c :: re_sub m s.
Proof. unfold re_sub; simpl. now intros ->. Qed.

Lemma re_sub_hit (m : matcher) (s repl mt rest : pystr) :
  m s = Some (repl, rest) -> mt <> [] -> s = mt ++ rest ->
  re_sub m s = repl ++ re_sub m rest.
Proof.
  intros Hm Hmt ->. destruct mt as [|c mt]; [contradiction|].
  unfold re_sub. simpl in *. rewrite Hm. f_equal.
  rewrite length_app, Nat.add_sub. apply sub_from_skip.
Qed.

(** Induction along the scan of [re_sub]. *)
Lemma re_sub_ind (m : matcher) (P : pystr -> pystr -> Prop) :
  consuming m ->
  P [] [] ->
  (forall c s, m (c :: s) = None ->
     P s (re_sub m s) -> P (c :: s) (c :: re_sub m s)) ->
  (forall s repl mt rest, m s = Some (repl, rest) -> mt <> [] ->
     s = mt ++ rest -> P rest (re_sub m rest) -> P s (repl ++ re_sub m rest)) ->
  forall s, P s (re_sub m s).
Proof.
  intros Hc Hnil Hmiss Hhit s.
  remember (List.length s) as n eqn:Hn. revert s Hn.
  induction n as [n IH] using lt_wf_ind. intros s Hn.
  destruct s as [|c s]; [exact Hnil|].
  destruct (m (c :: s)) as [[repl rest]|] eqn:Hm.
  - destruct (Hc _ _ _ Hm) as [mt [Hmt Hs]].
    rewrite (re_sub_hit _ _ _ _ _ Hm Hmt Hs).
    apply (Hhit _ _ mt _ Hm Hmt Hs).
    apply (IH (List.length rest)); [|reflexivity].
    rewrite Hn, Hs, length_app. destruct mt; [contradiction | simpl; lia].
  - rewrite (re_sub_miss _ _ _ Hm). apply Hmiss; [exact Hm|].
    apply (IH (List.length s)); [simpl in Hn; lia | reflexivity].
Qed.

(** A scan that finds no match anywhere copies its input. *)
Lemma re_sub_no_match (m : matcher) (s : pystr) :
  (forall a b, s = a ++ b -> m b = None) -> re_sub m s = s.
Proof.
  induction s as [|c s IH]; intros H; [reflexivity|].
  rewrite re_sub_miss by (apply (H []); reflexivity).
  f_equal. apply IH. intros a b ->. apply (H (c :: a)). reflexivity.
Qed.

(** A scan whose replacements are the matched texts copies its input. *)
Lemma re_sub_same (m : matcher) :
  (forall s repl rest, m s = Some (repl, rest) -> repl <> [] /\ s = repl ++ rest) ->
  forall s, re_sub m s = s.
Proof.
  intros H s. remember (List.length s) as n eqn:Hn. revert s Hn.
  induction n as [n IH] using lt_wf_ind. intros s Hn.
  destruct s as [|c s]; [reflexivity|].
  destruct (m (c :: s)) as [[repl rest]|] eqn:Hm.
  - destruct (H _ _ _ Hm) as [Hr Hs].
    rewrite (re_sub_hit _ _ _ _ _ Hm Hr Hs), Hs. f_equal.
    apply (IH (List.length rest)); [|reflexivity].
    rewrite Hn, Hs, length_app. destruct repl; [contradiction | simpl; lia].
  - rewrite (re_sub_miss _ _ _ Hm). f_equal.
    apply (IH (List.length s)); [simpl in Hn; lia | reflexivity].
Qed.

(* ================================================================== *)
(** * [str.replace] *)
(* ================================================================== *)

Lemma match_literal_hit (old new s repl rest : pystr) :
  match_literal old new s = Some (repl, rest) ->
  repl = new /\ s = old ++ rest.
Proof.
  unfold match_literal. destruct (startswith old s) eqn:E; [|discriminate].
  intros H. injection H as <- <-. split; [reflexivity|].
  now apply startswith_skipn.
Qed.

Lemma match_literal_miss (old new s : pystr) :
  match_literal old new s = None <-> startswith old s = false.
Proof.
  unfold match_literal. destruct (startswith old s); split; congruence.
Qed.

Lemma match_literal_consuming (old new : pystr) :
  old <> [] -> consuming (match_literal old new).
Proof.
  intros Ho s repl rest H. apply match_literal_hit in H as [_ H].
  now exists old.
Qed.

Lemma nonempty_iff (s : pystr) : nonempty s = true <-> s <> [].
Proof. destruct s; simpl; split; congruence. Qed.

(** A prefix of the result that cannot run into an inserted [new] was a
    prefix of the input. *)
Lemma replace_startswith (old new key s : pystr) :
  old <> [] -> no_clash_l key new = true ->
  startswith key (replace old new s) = true -> startswith key s = true.
Proof.
  intros Ho. unfold replace. revert key.
  induction s as [|c s IH]; intros key Hk H; [exact H|].
  destruct key as [|x key]; [reflexivity|].
  simpl in Hk. apply andb_true_iff in Hk as [Hx Hk].
  destruct (match_literal old new (c :: s)) as [[repl rest]|] eqn:Hm.
  - exfalso. destruct (match_literal_hit _ _ _ _ _ Hm) as [-> Hs].
    rewrite (re_sub_hit _ _ _ _ _ Hm Ho Hs) in H.
    apply startswith_app_cases in H. now rewrite H in Hx.
  - rewrite (re_sub_miss _ _ _ Hm) in H. simpl in H |- *.
    apply andb_true_iff in H as [-> H]. simpl. now apply IH.
Qed.

(** An occurrence in [new ++ y] that cannot begin inside [new] lies in [y]. *)
Lemma contains_after_new (key new y : pystr) :
  no_clash_r key new = true ->
  contains key (new ++ y) = true -> contains key y = true.
Proof.
  induction new as [|x new IH]; intros Hk H; [exact H|].
  simpl in Hk. apply andb_true_iff in Hk as [Hx Hk].
  change ((x :: new) ++ y) with (x :: new ++ y) in H.
  rewrite contains_cons in H. apply orb_true_iff in H as [H|H].
  - apply (startswith_app_cases key (x :: new) y) in H. now rewrite H in Hx.
  - now apply IH.
Qed.

Lemma not_true_false (b : bool) : (b = true -> False) -> b = false.
Proof. destruct b; [intros H; now destruct H | reflexivity]. Qed.

(** A replacement that is harmless for [key] does not bring it in. *)
Lemma replace_keeps_free (old new key s : pystr) :
  old <> [] -> no_clash key new = true ->
  contains key s = false -> contains key (replace old new s) = false.
Proof.
  intros Ho Hk. apply andb_true_iff in Hk as [Hl Hr].
  unfold replace.
  apply (re_sub_ind (match_literal old new)
    (fun s out => contains key s = false -> contains key out = false)).
  - now apply match_literal_consuming.
  - trivial.
  - intros c t Hm IH H. rewrite contains_cons in H.
    apply orb_false_iff in H as [H1 H2].
    rewrite contains_cons, (IH H2), orb_false_r.
    apply not_true_false. intros H.
    rewrite <- (re_sub_miss _ _ _ Hm) in H.
    apply (replace_startswith old new key (c :: t) Ho Hl) in H. congruence.
  - intros t repl mt rest Hm Hmt Hs IH H.
    destruct (match_literal_hit _ _ _ _ _ Hm) as [-> _].
    apply not_true_false. intros H'.
    apply (contains_after_new _ _ _ Hr) in H'.
    rewrite IH in H'; [discriminate|].
    apply not_true_false. intros H''.
    apply (contains_app_r key mt) in H''. rewrite <- Hs in H''. congruence.
Qed.

(** A replacement that is harmless for its own key removes it. *)
Lemma replace_removes (old new s : pystr) :
  old <> [] -> no_clash old new = true ->
  contains old (replace old new s) = false.
Proof.
  intros Ho Hk. apply andb_true_iff in Hk as [Hl Hr].
  unfold replace.
  apply (re_sub_ind (match_literal old new)
    (fun _ out => contains old out = false)).
  - now apply match_literal_consuming.
  - rewrite contains_nil_r. apply nonempty_iff in Ho. now rewrite Ho.
  - intros c t Hm IH.
    rewrite contains_cons, IH, orb_false_r.
    apply not_true_false. intros H.
    rewrite <- (re_sub_miss _ _ _ Hm) in H.
    apply (replace_startswith old new old (c :: t) Ho Hl) in H.
    apply match_literal_miss in Hm. congruence.
  - intros t repl mt rest Hm Hmt Hs IH.
    destruct (match_literal_hit _ _ _ _ _ Hm) as [-> _].
    apply not_true_false. intros H'.
    apply (contains_after_new _ _ _ Hr) in H'. congruence.
Qed.

(** Where the key does not occur there is nothing to replace. *)
Lemma replace_absent (old new s : pystr) :
  contains old s = false -> replace old new s = s.
Proof.
  intros H. apply re_sub_no_match. intros a b ->.
  apply match_literal_miss. apply not_true_false. intros Hb.
  assert (contains old b = true) as Hc
    by (destruct b; simpl; rewrite Hb; reflexivity).
  apply (contains_app_r old a) in Hc. congruence.
Qed.

Lemma replace_by_itself (old s : pystr) :
  old <> [] -> replace old old s = s.
Proof.
  intros Ho. apply re_sub_same. intros t repl rest Hm.
  destruct (match_literal_hit _ _ _ _ _ Hm) as [-> Hs]. now split.
Qed.

(* ================================================================== *)
(** * The table of replacements *)
(* ================================================================== *)

Lemma apply_replacements_cons (r : pystr * pystr) rs (s : pystr) :
  apply_replacements (r :: rs) s
  = apply_replacements rs (replace (fst r) (snd r) s).
Proof. reflexivity. Qed.

Lemma stable_table_keys (rs : list (pystr * pystr)) :
  stable_table rs = true -> Forall (fun r => fst r <> []) rs.
Proof.
  induction rs as [|r rs IH]; simpl; intros H; constructor.
  - apply andb_true_iff in H as [H _]. apply andb_true_iff in H as [H _].
    now apply nonempty_iff.
  - apply IH. now apply andb_true_iff in H as [_ H].
Qed.

(** Entries that are harmless for [key] keep a text free of [key]. *)
Lemma apply_replacements_keeps_free (key : pystr) rs (s : pystr) :
  Forall (fun r => fst r <> []) rs ->
  forallb (harmless key) rs = true ->
  contains key s = false -> contains key (apply_replacements rs s) = false.
Proof.
  revert s. induction rs as [|r rs IH]; intros s Hne Hh Hs; [exact Hs|].
  rewrite apply_replacements_cons. inversion Hne as [|? ? Hr Hrs]; subst.
  simpl in Hh. apply andb_true_iff in Hh as [Hh1 Hh2].
  apply IH; [assumption | assumption |].
  unfold harmless in Hh1. apply orb_true_iff in Hh1 as [E|Hc].
  - apply str_eqb_eq in E. rewrite <- E, (replace_by_itself _ _ Hr). exact Hs.
  - now apply replace_keeps_free.
Qed.

(** After the replacements of a stable table, no entry has work left. *)
Lemma apply_replacements_settled rs :
  stable_table rs = true -> forall s, settled rs (apply_replacements rs s).
Proof.
  unfold settled. induction rs as [|r rs IH]; intros H s; constructor.
  - pose proof (stable_table_keys _ H) as Hne.
    inversion Hne as [|? ? Hr Hrs]; subst.
    simpl in H. apply andb_true_iff in H as [H _].
    apply andb_true_iff in H as [_ H].
    apply orb_true_iff in H as [E|H].
    + left. now apply str_eqb_eq.
    + right. apply andb_true_iff in H as [Hc Hh].
      rewrite apply_replacements_cons.
      apply apply_replacements_keeps_free; [assumption | assumption |].
      now apply replace_removes.
  - rewrite apply_replacements_cons. apply IH.
    simpl in H. now apply andb_true_iff in H as [_ H].
Qed.

(** A text in which no entry has work left is not changed. *)
Lemma apply_replacements_fixed rs (s : pystr) :
  Forall (fun r => fst r <> []) rs ->
  settled rs s -> apply_replacements rs s = s.
Proof.
  unfold settled. induction rs as [|r rs IH]; intros Hne H; [reflexivity|].
  inversion Hne as [|? ? Hr Hrs]; subst. inversion H as [|? ? H1 H2]; subst.
  rewrite apply_replacements_cons.
  assert (replace (fst r) (snd r) s = s) as E.
  { cbv beta in H1. destruct H1 as [E|E].
    - rewrite <- E. now apply replace_by_itself.
    - now apply replace_absent. }
  rewrite E. now apply IH.
Qed.

Lemma replacements_stable : stable_table replacements = true.
Proof. vm_compute. reflexivity. Qed.

(* ================================================================== *)
(** * [str.strip] *)
(* ================================================================== *)

Lemma dropwhile_suffix (f : N -> bool) (s : pystr) :
  exists a, s = a ++ dropwhile f s /\ forallb f a = true.
Proof.
  induction s as [|c s [a [IH Ha]]]; simpl.
  - now exists [].
  - destruct (f c) eqn:E.
    + exists (c :: a). simpl. rewrite E, Ha. split; [now f_equal | reflexivity].
    + now exists [].
Qed.

Lemma dropwhile_head (f : N -> bool) (s : pystr) (c : N) (t : pystr) :
  dropwhile f s = c :: t -> f c = false.
Proof.
  induction s as [|x s IH]; simpl; [discriminate|].
  destruct (f x) eqn:E; [exact IH|]. intros H. injection H as <- _. exact E.
Qed.

Lemma dropwhile_fixed (f : N -> bool) (s : pystr) :
  (forall c t, s = c :: t -> f c = false) -> dropwhile f s = s.
Proof.
  destruct s as [|c s]; [reflexivity|]. intros H. simpl.
  now rewrite (H c s eq_refl).
Qed.

Lemma dropwhile_idem (f : N -> bool) (s : pystr) :
  dropwhile f (dropwhile f s) = dropwhile f s.
Proof.
  apply dropwhile_fixed. intros c t H. now apply dropwhile_head in H.
Qed.

Lemma dropwhile_snoc (f : N -> bool) (s : pystr) (c : N) :
  f c = false -> dropwhile f (s ++ [c]) = dropwhile f s ++ [c].
Proof.
  intros Hc. induction s as [|x s IH]; simpl.
  - now rewrite Hc.
  - destruct (f x); [exact IH | reflexivity].
Qed.

Lemma rstrip_idem (s : pystr) : rstrip (rstrip s) = rstrip s.
Proof. unfold rstrip. now rewrite rev_involutive, dropwhile_idem. Qed.

Lemma rstrip_cons (c : N) (s : pystr) :
  isspace c = false -> rstrip (c :: s) = c :: rstrip s.
Proof.
  intros Hc. unfold rstrip. simpl.
  now rewrite (dropwhile_snoc _ _ _ Hc), rev_app_distr.
Qed.

Lemma lstrip_rstrip_lstrip (s : pystr) :
  lstrip (rstrip (lstrip s)) = rstrip (lstrip s).
Proof.
  unfold lstrip at 2 3. destruct (dropwhile isspace s) as [|c t] eqn:E.
  - reflexivity.
  - pose proof (dropwhile_head _ _ _ _ E) as Hc.
    rewrite (rstrip_cons _ _ Hc). unfold lstrip. simpl. now rewrite Hc.
Qed.

Lemma strip_idem (s : pystr) : strip (strip s) = strip s.
Proof.
  unfold strip. now rewrite lstrip_rstrip_lstrip, rstrip_idem.
Qed.

(** What [strip] cuts off on either side is whitespace. *)
Lemma strip_infix (s : pystr) :
  exists a b, s = a ++ strip s ++ b
              /\ forallb isspace a = true /\ forallb isspace b = true.
Proof.
  unfold strip, lstrip, rstrip.
  destruct (dropwhile_suffix isspace s) as [a [Ha Hwa]].
  destruct (dropwhile_suffix isspace (rev (dropwhile isspace s))) as [b [Hb Hwb]].
  exists a, (rev b). split; [|split].
  - rewrite <- rev_app_distr, <- Hb, rev_involutive. exact Ha.
  - exact Hwa.
  - rewrite forallb_forall in *. intros x Hx. apply Hwb. now apply in_rev.
Qed.

Lemma strip_head (s : pystr) (c : N) (t : pystr) :
  strip s = c :: t -> isspace c = false.
Proof.
  unfold strip. rewrite <- lstrip_rstrip_lstrip. unfold lstrip at 1.
  apply dropwhile_head.
Qed.

Lemma strip_last (s t : pystr) (c : N) :
  strip s = t ++ [c] -> isspace c = false.
Proof.
  unfold strip, rstrip. intros H.
  apply (f_equal (@rev N)) in H. rewrite rev_involutive, rev_app_distr in H.
  simpl in H. now apply dropwhile_head in H.
Qed.

Lemma strip_keeps_free (key s : pystr) :
  contains key s = false -> contains key (strip s) = false.
Proof.
  intros H. apply not_true_false. intros Hc.
  destruct (strip_infix s) as [a [b [Hs _]]].
  apply (contains_app_l key _ b), (contains_app_r key a) in Hc.
  rewrite <- Hs in Hc. congruence.
Qed.

(** A text with a character that is not whitespace does not strip to the
    empty string. *)
Lemma strip_not_blank (s : pystr) (c : N) :
  In c s -> isspace c = false -> strip s <> [].
Proof.
  intros Hin Hc E. destruct (strip_infix s) as [a [b [Hs [Ha Hb]]]].
  rewrite E in Hs. simpl in Hs. rewrite Hs in Hin.
  apply in_app_or in Hin. rewrite forallb_forall in Ha, Hb.
  destruct Hin as [Hin|Hin]; [apply Ha in Hin | apply Hb in Hin]; congruence.
Qed.

(* ================================================================== *)
(** * Matchers that rewrite whitespace *)
(* ================================================================== *)

Lemma no_space_cons (x : N) (key : pystr) :
  no_space (x :: key) = true -> isspace x = false /\ no_space key = true.
Proof.
  unfold no_space. simpl. intros H. apply andb_true_iff in H as [H1 H2].
  split; [now apply negb_true_iff | exact H2].
Qed.

Lemma space_sub_startswith (m : matcher) (key s : pystr) :
  consuming m -> space_matcher m -> no_space key = true ->
  startswith key (re_sub m s) = true -> startswith key s = true.
Proof.
  intros Hc Hm. revert key.
  induction s as [|c s IH]; intros key Hk H; [exact H|].
  destruct key as [|x key]; [reflexivity|].
  apply no_space_cons in Hk as [Hx Hk].
  destruct (m (c :: s)) as [[repl rest]|] eqn:E.
  - exfalso. destruct (Hc _ _ _ E) as [mt [Hmt Hs]].
    rewrite (re_sub_hit _ _ _ _ _ E Hmt Hs) in H.
    destruct (Hm _ _ _ E) as [Hr Hw].
    destruct repl as [|y repl]; [contradiction|]. simpl in H, Hw.
    apply andb_true_iff in H as [H _]. apply N.eqb_eq in H as <-.
    apply andb_true_iff in Hw as [Hw _]. congruence.
  - rewrite (re_sub_miss _ _ _ E) in H. simpl in H |- *.
    apply andb_true_iff in H as [-> H]. simpl. now apply IH.
Qed.

Lemma contains_after_space (key repl y : pystr) :
  key <> [] -> no_space key = true -> forallb isspace repl = true ->
  contains key (repl ++ y) = true -> contains key y = true.
Proof.
  intros Hne Hk. induction repl as [|x repl IH]; intros Hw H; [exact H|].
  simpl in Hw. apply andb_true_iff in Hw as [Hx Hw].
  change ((x :: repl) ++ y) with (x :: repl ++ y) in H.
  rewrite contains_cons in H. apply orb_true_iff in H as [H|H].
  - destruct key as [|k key]; [contradiction|].
    apply no_space_cons in Hk as [Hk _]. simpl in H.
    apply andb_true_iff in H as [H _]. apply N.eqb_eq in H as <-. congruence.
  - now apply IH.
Qed.

(** Rewriting whitespace does not bring in a key without whitespace. *)
Lemma space_sub_keeps_free (m : matcher) (key s : pystr) :
  consuming m -> space_matcher m -> key <> [] -> no_space key = true ->
  contains key s = false -> contains key (re_sub m s) = false.
Proof.
  intros Hc Hm Hne Hk.
  apply (re_sub_ind m
    (fun s out => contains key s = false -> contains key out = false)); trivial.
  - intros c t E IH H. rewrite contains_cons in H.
    apply orb_false_iff in H as [H1 H2].
    rewrite contains_cons, (IH H2), orb_false_r.
    apply not_true_false. intros H.
    rewrite <- (re_sub_miss _ _ _ E) in H.
    apply (space_sub_startswith m key (c :: t) Hc Hm Hk) in H. congruence.
  - intros t repl mt rest E Hmt Hs IH H.
    destruct (Hm _ _ _ E) as [_ Hw].
    apply not_true_false. intros H'.
    apply (contains_after_space key repl _ Hne Hk Hw) in H'.
    rewrite IH in H'; [discriminate|].
    apply not_true_false. intros H''.
    apply (contains_app_r key mt) in H''. rewrite <- Hs in H''. congruence.
Qed.

(* ================================================================== *)
(** * The pattern [[ \t]+] *)
(* ================================================================== *)

Lemma re_star_blanks (s : pystr) :
  re_star isblank (fun rest => Some (lit " ", rest)) s
  = Some (lit " ", dropwhile isblank s).
Proof.
  induction s as [|c s IH]; simpl; [reflexivity|].
  destruct (isblank c); [now rewrite IH | reflexivity].
Qed.

Lemma match_blanks_cons (c : N) (s : pystr) :
  match_blanks (c :: s)
  = if isblank c then Some (lit " ", dropwhile isblank s) else None.
Proof.
  unfold match_blanks, re_plus. simpl. now rewrite re_star_blanks.
Qed.

Lemma match_blanks_hit (s repl rest : pystr) :
  match_blanks s = Some (repl, rest) ->
  repl = [chr_space] /\ head_blank rest = false
  /\ exists mt, mt <> [] /\ s = mt ++ rest.
Proof.
  destruct s as [|c s]; [discriminate|]. rewrite match_blanks_cons.
  destruct (isblank c); [|discriminate]. intros H. injection H as <- <-.
  split; [reflexivity|]. split.
  - destruct (dropwhile isblank s) as [|x t] eqn:E; [reflexivity|].
    simpl. exact (dropwhile_head _ _ _ _ E).
  - destruct (dropwhile_suffix isblank s) as [a [Ha _]].
    exists (c :: a). split; [discriminate|]. simpl. now f_equal.
Qed.

Lemma match_blanks_consuming : consuming match_blanks.
Proof.
  intros s repl rest H. now destruct (match_blanks_hit _ _ _ H) as [_ [_ H']].
Qed.

Lemma match_blanks_space : space_matcher match_blanks.
Proof.
  intros s repl rest H. destruct (match_blanks_hit _ _ _ H) as [-> _].
  split; [discriminate | reflexivity].
Qed.

Lemma head_blank_sub_blanks (s : pystr) :
  head_blank s = false -> head_blank (re_sub match_blanks s) = false.
Proof.
  destruct s as [|c s]; [trivial|]. simpl. intros Hc.
  rewrite re_sub_miss; [exact Hc|]. now rewrite match_blanks_cons, Hc.
Qed.

(** After the first substitution every blank is a single space. *)
Lemma sub_blanks_single_spaced (s : pystr) :
  single_spaced (re_sub match_blanks s) = true.
Proof.
  apply (re_sub_ind match_blanks (fun _ out => single_spaced out = true)).
  - exact match_blanks_consuming.
  - reflexivity.
  - intros c t E IH. rewrite match_blanks_cons in E.
    simpl. destruct (isblank c); [discriminate | exact IH].
  - intros t repl mt rest E _ _ IH.
    destruct (match_blanks_hit _ _ _ E) as [-> [Hh _]].
    simpl. now rewrite (head_blank_sub_blanks _ Hh), IH.
Qed.

Lemma single_spaced_fixed (s : pystr) :
  single_spaced s = true -> re_sub match_blanks s = s.
Proof.
  induction s as [|c s IH]; [reflexivity|]. simpl. intros H.
  apply andb_true_iff in H as [Hc Hs].
  destruct (isblank c) eqn:E.
  - apply andb_true_iff in Hc as [Hc Hh]. apply N.eqb_eq in Hc as ->.
    apply negb_true_iff in Hh.
    assert (dropwhile isblank s = s) as Hd.
    { apply dropwhile_fixed. intros x t ->. exact Hh. }
    rewrite (re_sub_hit match_blanks (chr_space :: s) [chr_space] [chr_space] s).
    + simpl. f_equal. now apply IH.
    + rewrite match_blanks_cons. simpl. now rewrite Hd.
    + discriminate.
    + reflexivity.
  - rewrite re_sub_miss by (now rewrite match_blanks_cons, E).
    f_equal. now apply IH.
Qed.

Lemma single_spaced_app (a b : pystr) :
  single_spaced (a ++ b) = true ->
  single_spaced a = true /\ single_spaced b = true.
Proof.
  induction a as [|c a IH]; simpl; intros H; [now split|].
  apply andb_true_iff in H as [Hc H]. destruct (IH H) as [Ha Hb].
  split; [|exact Hb]. rewrite Ha, andb_true_r.
  destruct (isblank c); [|reflexivity].
  apply andb_true_iff in Hc as [-> Hh]. simpl.
  destruct a; [reflexivity | exact Hh].
Qed.

Lemma strip_single_spaced (s : pystr) :
  single_spaced s = true -> single_spaced (strip s) = true.
Proof.
  intros H. destruct (strip_infix s) as [a [b [Hs _]]]. rewrite Hs in H.
  apply single_spaced_app in H as [_ H]. now apply single_spaced_app in H.
Qed.

Lemma single_spaced_no_tab (s : pystr) :
  single_spaced s = true -> ~ In chr_tab s.
Proof.
  induction s as [|c s IH]; simpl; [tauto|]. intros H [E|Hin].
  - subst c. simpl in H. discriminate.
  - apply andb_true_iff in H as [_ H]. now apply IH.
Qed.

Lemma single_spaced_no_double (s : pystr) :
  single_spaced s = true -> contains [chr_space; chr_space] s = false.
Proof.
  induction s as [|c s IH]; [reflexivity|]. intros H.
  rewrite contains_cons. simpl in H. apply andb_true_iff in H as [Hc H].
  rewrite (IH H), orb_false_r. apply not_true_false. intros Hp.
  apply startswith_iff in Hp as [r Hr]. injection Hr as -> ->.
  simpl in Hc. discriminate.
Qed.

(* ================================================================== *)
(** * The pattern [\n\s*\n\s*\n] *)
(* ================================================================== *)

Lemma is_nl_isspace (c : N) : is_nl c = true -> isspace c = true.
Proof. unfold is_nl. intros H. apply N.eqb_eq in H as ->. reflexivity. Qed.

Lemma is_nl_eq (c : N) : is_nl c = true -> c = chr_nl.
Proof. unfold is_nl. apply N.eqb_eq. Qed.

Lemma nlws_nl (t : pystr) : nlws (chr_nl :: t) = S (nlws t).
Proof. reflexivity. Qed.

Lemma asks_newlines_end :
  asks_newlines 0 (fun rest => Some ([chr_nl; chr_nl], rest)).
Proof. intros t. split; [reflexivity | split; [lia | reflexivity]]. Qed.

Lemma asks_newlines_step (n : nat) (k : matcher) :
  asks_newlines n k ->
  asks_newlines (S n) (re_star isspace (re_one is_nl k)).
Proof.
  intros Hk t. induction t as [|c t IH]; simpl; [lia|].
  destruct (isspace c) eqn:Ec.
  - destruct (re_star isspace (re_one is_nl k) t) as [[r rest]|].
    + destruct IH as [-> [Hn [H0 [mt [Hmt Ht]]]]].
      split; [reflexivity|]. split; [lia|]. split; [exact H0|].
      exists (c :: mt). split; [discriminate | simpl; now f_equal].
    + destruct (is_nl c) eqn:En; [|simpl; lia].
      specialize (Hk t). destruct (k t) as [[r rest]|]; [|simpl; lia].
      destruct Hk as [-> [Hn Hrest]]. split; [reflexivity|].
      split; [simpl; lia|]. destruct n as [|n].
      * subst rest. split; [lia|]. exists [c]. split; [discriminate | reflexivity].
      * destruct Hrest as [H0 [mt [Hmt Ht]]]. split; [exact H0|].
        exists (c :: mt). split; [discriminate | simpl; now f_equal].
  - destruct (is_nl c) eqn:En; [|lia].
    apply is_nl_isspace in En. congruence.
Qed.

Lemma match_blank_lines_cons (c : N) (t : pystr) :
  match_blank_lines (c :: t)
  = if is_nl c
    then re_star isspace (re_one is_nl (re_star isspace
           (re_one is_nl (fun rest => Some ([chr_nl; chr_nl], rest))))) t
    else None.
Proof. reflexivity. Qed.

Lemma match_blank_lines_miss (c : N) (t : pystr) :
  match_blank_lines (c :: t) = None -> is_nl c = false \/ nlws t < 2.
Proof.
  rewrite match_blank_lines_cons. destruct (is_nl c); [|now left].
  intros H. right.
  pose proof (asks_newlines_step _ _ (asks_newlines_step _ _ asks_newlines_end) t) as S.
  now rewrite H in S.
Qed.

Lemma match_blank_lines_hit (s repl rest : pystr) :
  match_blank_lines s = Some (repl, rest) ->
  repl = [chr_nl; chr_nl] /\ nlws rest = 0
  /\ exists t mt, s = chr_nl :: t /\ 2 <= nlws t /\ t = mt ++ rest.
Proof.
  destruct s as [|c t]; [discriminate|]. rewrite match_blank_lines_cons.
  destruct (is_nl c) eqn:En; [|discriminate]. intros H.
  pose proof (asks_newlines_step _ _ (asks_newlines_step _ _ asks_newlines_end) t) as S.
  rewrite H in S. destruct S as [-> [Hn [H0 [mt [_ Ht]]]]].
  split; [reflexivity|]. split; [exact H0|].
  exists t, mt. apply is_nl_eq in En. subst c. now split.
Qed.

Lemma match_blank_lines_consuming : consuming match_blank_lines.
Proof.
  intros s repl rest H.
  destruct (match_blank_lines_hit _ _ _ H) as [_ [_ [t [mt [-> [_ ->]]]]]].
  exists (chr_nl :: mt). split; [discriminate | reflexivity].
Qed.

Lemma match_blank_lines_space : space_matcher match_blank_lines.
Proof.
  intros s repl rest H. destruct (match_blank_lines_hit _ _ _ H) as [-> _].
  split; [discriminate | reflexivity].
Qed.

(** The substitution cuts the newlines of a run of whitespace down to two. *)
Lemma nlws_sub_blank_lines (s : pystr) :
  nlws (re_sub match_blank_lines s) = Nat.min (nlws s) 2.
Proof.
  apply (re_sub_ind match_blank_lines
           (fun s out => nlws out = Nat.min (nlws s) 2)).
  - exact match_blank_lines_consuming.
  - reflexivity.
  - intros c t E IH. apply match_blank_lines_miss in E. simpl.
    destruct (isspace c); [|reflexivity]. rewrite IH.
    destruct (is_nl c); [|reflexivity]. destruct E as [E|E]; [discriminate|].
    simpl. lia.
  - intros t repl mt rest E _ _ IH.
    destruct (match_blank_lines_hit _ _ _ E) as [-> [H0 [u [mu [-> [Hn _]]]]]].
    change ([chr_nl; chr_nl] ++ re_sub match_blank_lines rest)
      with (chr_nl :: chr_nl :: re_sub match_blank_lines rest).
    rewrite !nlws_nl, IH, H0. simpl Nat.min at 1. lia.
Qed.

Lemma sub_blank_lines_two_newlines (s : pystr) :
  two_newlines (re_sub match_blank_lines s) = true.
Proof.
  apply (re_sub_ind match_blank_lines (fun _ out => two_newlines out = true)).
  - exact match_blank_lines_consuming.
  - reflexivity.
  - intros c t E IH.
    change (two_newlines (c :: re_sub match_blank_lines t))
      with ((nlws (c :: re_sub match_blank_lines t) <=? 2)
            && two_newlines (re_sub match_blank_lines t)).
    rewrite IH, andb_true_r, <- (re_sub_miss _ _ _ E), nlws_sub_blank_lines.
    apply Nat.leb_le. lia.
  - intros t repl mt rest E _ _ IH.
    destruct (match_blank_lines_hit _ _ _ E) as [-> [H0 _]].
    pose proof (nlws_sub_blank_lines rest) as Hr. rewrite H0 in Hr.
    change ([chr_nl; chr_nl] ++ re_sub match_blank_lines rest)
      with (chr_nl :: chr_nl :: re_sub match_blank_lines rest).
    change (two_newlines (chr_nl :: chr_nl :: re_sub match_blank_lines rest))
      with ((nlws (chr_nl :: chr_nl :: re_sub match_blank_lines rest) <=? 2)
            && ((nlws (chr_nl :: re_sub match_blank_lines rest) <=? 2)
                && two_newlines (re_sub match_blank_lines rest))).
    rewrite IH, !nlws_nl, Hr. reflexivity.
Qed.

Lemma nlws_app_le (a b : pystr) : nlws a <= nlws (a ++ b).
Proof.
  induction a as [|c a IH]; simpl; [lia|]. destruct (isspace c); lia.
Qed.

Lemma two_newlines_app (a b : pystr) :
  two_newlines (a ++ b) = true ->
  two_newlines a = true /\ two_newlines b = true.
Proof.
  induction a as [|c a IH]; intros H; [now split|].
  change (two_newlines ((c :: a) ++ b))
    with ((nlws ((c :: a) ++ b) <=? 2) && two_newlines (a ++ b)) in H.
  apply andb_true_iff in H as [Hc H]. destruct (IH H) as [Ha Hb].
  split; [|exact Hb].
  change (two_newlines (c :: a)) with ((nlws (c :: a) <=? 2) && two_newlines a).
  rewrite Ha, andb_true_r. apply Nat.leb_le. apply Nat.leb_le in Hc.
  pose proof (nlws_app_le (c :: a) b). lia.
Qed.

Lemma two_newlines_head (s : pystr) : two_newlines s = true -> nlws s <= 2.
Proof.
  destruct s as [|c s]; [simpl; lia|]. intros H.
  change (two_newlines (c :: s))
    with ((nlws (c :: s) <=? 2) && two_newlines s) in H.
  apply andb_true_iff in H as [H _]. now apply Nat.leb_le.
Qed.

Lemma two_newlines_no_match (s : pystr) :
  two_newlines s = true -> match_blank_lines s = None.
Proof.
  intros H. destruct (match_blank_lines s) as [[repl rest]|] eqn:E; [|reflexivity].
  destruct (match_blank_lines_hit _ _ _ E) as [_ [_ [t [mt [-> [Hn _]]]]]].
  apply two_newlines_head in H. rewrite nlws_nl in H. lia.
Qed.

Lemma two_newlines_fixed (s : pystr) :
  two_newlines s = true -> re_sub match_blank_lines s = s.
Proof.
  intros H. apply re_sub_no_match. intros a b ->.
  apply two_newlines_no_match. now apply two_newlines_app in H.
Qed.

Lemma strip_two_newlines (s : pystr) :
  two_newlines s = true -> two_newlines (strip s) = true.
Proof.
  intros H. destruct (strip_infix s) as [a [b [Hs _]]]. rewrite Hs in H.
  apply two_newlines_app in H as [_ H]. now apply two_newlines_app in H.
Qed.

Lemma two_newlines_no_triple (s : pystr) :
  two_newlines s = true -> contains [chr_nl; chr_nl; chr_nl] s = false.
Proof.
  intros H. apply not_true_false. intros Hc.
  apply contains_iff in Hc as [a [b ->]].
  apply two_newlines_app in H as [_ H]. apply two_newlines_head in H.
  simpl in H. lia.
Qed.

Lemma head_blank_sub_blank_lines (s : pystr) :
  head_blank (re_sub match_blank_lines s) = head_blank s.
Proof.
  destruct s as [|c s]; [reflexivity|].
  destruct (match_blank_lines (c :: s)) as [[repl rest]|] eqn:E.
  - destruct (match_blank_lines_consuming _ _ _ E) as [mt [Hmt Hs]].
    rewrite (re_sub_hit _ _ _ _ _ E Hmt Hs).
    destruct (match_blank_lines_hit _ _ _ E) as [-> [_ [t [mu [Hc _]]]]].
    injection Hc as -> _. reflexivity.
  - now rewrite (re_sub_miss _ _ _ E).
Qed.

Lemma sub_blank_lines_single_spaced (s : pystr) :
  single_spaced s = true -> single_spaced (re_sub match_blank_lines s) = true.
Proof.
  apply (re_sub_ind match_blank_lines
           (fun s out => single_spaced s = true -> single_spaced out = true)).
  - exact match_blank_lines_consuming.
  - trivial.
  - intros c t E IH H. simpl in H |- *.
    apply andb_true_iff in H as [Hc H].
    now rewrite head_blank_sub_blank_lines, Hc, (IH H).
  - intros t repl mt rest E _ Hs IH H.
    destruct (match_blank_lines_hit _ _ _ E) as [-> _].
    rewrite Hs in H. apply single_spaced_app in H as [_ H].
    simpl. now apply IH.
Qed.

(* ================================================================== *)
(** * The pattern [(\d+)\.(\d+)] *)
(* ================================================================== *)

Lemma re_star_group_hit (A : Type) (cls : N -> bool)
    (k : pystr -> pystr -> option A) (s g : pystr) (r : A) :
  re_star_group cls g k s = Some r ->
  exists a b, s = a ++ b /\ k (g ++ a) b = Some r.
Proof.
  revert g. induction s as [|c s IH]; intros g; simpl.
  - intros H. exists [], []. split; [reflexivity | now rewrite app_nil_r].
  - assert (k g (c :: s) = Some r ->
            exists a b, c :: s = a ++ b /\ k (g ++ a) b = Some r) as Hstop.
    { intros H. exists [], (c :: s).
      split; [reflexivity | now rewrite app_nil_r]. }
    destruct (cls c); [|exact Hstop].
    destruct (re_star_group cls (g ++ [c]) k s) as [r'|] eqn:E; [|exact Hstop].
    intros H. injection H as ->.
    destruct (IH _ E) as [a [b [-> Hk]]].
    exists (c :: a), b. split; [reflexivity|].
    now rewrite <- app_assoc in Hk.
Qed.

Lemma re_plus_group_hit (A : Type) (cls : N -> bool)
    (k : pystr -> pystr -> option A) (s : pystr) (r : A) :
  re_plus_group cls k s = Some r ->
  exists a b, a <> [] /\ s = a ++ b /\ k a b = Some r.
Proof.
  destruct s as [|c s]; simpl; [discriminate|].
  destruct (cls c); [|discriminate]. intros H.
  destruct (re_star_group_hit _ _ _ _ _ _ H) as [a [b [-> Hk]]].
  exists (c :: a), b. split; [discriminate|]. now split.
Qed.

(** The replacement [\1.\2] writes back the text that was matched. *)
Lemma match_decimal_hit (isdecimal : N -> bool) (s repl rest : pystr) :
  match_decimal isdecimal s = Some (repl, rest) ->
  repl <> [] /\ s = repl ++ rest.
Proof.
  unfold match_decimal. intros H.
  apply re_plus_group_hit in H as [g1 [b [Hg1 [-> H]]]].
  destruct b as [|c b]; [discriminate|]. simpl in H.
  destruct (is_dot c) eqn:Ec; [|discriminate].
  apply N.eqb_eq in Ec. subst c.
  apply re_plus_group_hit in H as [g2 [b' [_ [-> H]]]].
  injection H as <- <-. split.
  - destruct g1; [contradiction | discriminate].
  - now rewrite <- !app_assoc.
Qed.

Lemma sub_decimal_same (isdecimal : N -> bool) (s : pystr) :
  re_sub (match_decimal isdecimal) s = s.
Proof. apply re_sub_same. apply match_decimal_hit. Qed.

(* ================================================================== *)
(** * [clean_ocr_text] *)
(* ================================================================== *)

Lemma replacements_plain : plain_keys replacements = true.
Proof. vm_compute. reflexivity. Qed.

Lemma plain_keys_nonempty (rs : list (pystr * pystr)) :
  plain_keys rs = true -> Forall (fun r => fst r <> []) rs.
Proof.
  unfold plain_keys. rewrite forallb_forall, Forall_forall.
  intros H r Hr. apply H in Hr. apply andb_true_iff in Hr as [Hr _].
  now apply nonempty_iff.
Qed.

(** A step that brings in no key without whitespace keeps a text settled. *)
Lemma settled_step (rs : list (pystr * pystr)) (f : pystr -> pystr) (s : pystr) :
  plain_keys rs = true ->
  (forall key, key <> [] -> no_space key = true ->
     contains key s = false -> contains key (f s) = false) ->
  settled rs s -> settled rs (f s).
Proof.
  unfold settled, plain_keys. rewrite forallb_forall, !Forall_forall.
  intros Hp Hf H r Hr. destruct (H r Hr) as [E|E]; [now left | right].
  apply Hp in Hr. apply andb_true_iff in Hr as [Hn Hk].
  apply Hf; [now apply nonempty_iff | exact Hk | exact E].
Qed.

Section NormalizerFacts.
Variable isdecimal : N -> bool.

Lemma normalize_unfold (t : pystr) :
  normalize isdecimal t
  = strip (re_sub match_blank_lines (re_sub match_blanks
            (apply_replacements replacements t))).
Proof. unfold normalize. now rewrite sub_decimal_same. Qed.

Lemma normalize_settled (t : pystr) :
  settled replacements (normalize isdecimal t).
Proof.
  rewrite normalize_unfold.
  apply (settled_step _ strip _ replacements_plain).
  { intros key _ _. apply strip_keeps_free. }
  apply (settled_step _ (re_sub match_blank_lines) _ replacements_plain).
  { intros key. apply space_sub_keeps_free.
    - exact match_blank_lines_consuming.
    - exact match_blank_lines_space. }
  apply (settled_step _ (re_sub match_blanks) _ replacements_plain).
  { intros key. apply space_sub_keeps_free.
    - exact match_blanks_consuming.
    - exact match_blanks_space. }
  apply apply_replacements_settled. exact replacements_stable.
Qed.

Lemma normalize_single_spaced (t : pystr) :
  single_spaced (normalize isdecimal t) = true.
Proof.
  rewrite normalize_unfold.
  apply strip_single_spaced, sub_blank_lines_single_spaced,
    sub_blanks_single_spaced.
Qed.

Lemma normalize_two_newlines (t : pystr) :
  two_newlines (normalize isdecimal t) = true.
Proof.
  rewrite normalize_unfold.
  apply strip_two_newlines, sub_blank_lines_two_newlines.
Qed.

Lemma normalize_stripped (t : pystr) :
  strip (normalize isdecimal t) = normalize isdecimal t.
Proof. rewrite normalize_unfold. apply strip_idem. Qed.

(** A text that has the four properties of a normalized text is left as
    it is. *)
Lemma normalize_fixed (s : pystr) :
  settled replacements s -> single_spaced s = true ->
  two_newlines s = true -> strip s = s ->
  normalize isdecimal s = s.
Proof.
  intros H1 H2 H3 H4. rewrite normalize_unfold.
  rewrite (apply_replacements_fixed _ _
             (plain_keys_nonempty _ replacements_plain) H1).
  now rewrite (single_spaced_fixed _ H2), (two_newlines_fixed _ H3).
Qed.

Lemma normalize_idem (t : pystr) :
  normalize isdecimal (normalize isdecimal t) = normalize isdecimal t.
Proof.
  apply normalize_fixed.
  - apply normalize_settled.
  - apply normalize_single_spaced.
  - apply normalize_two_newlines.
  - apply normalize_stripped.
Qed.

Lemma clean_ocr_text_some (t : pystr) :
  t <> [] -> clean_ocr_text isdecimal (Some t) = Some (normalize isdecimal t).
Proof. destruct t; [contradiction | reflexivity]. Qed.
End NormalizerFacts.

(* ================================================================== *)
(** * The banners *)
(* ================================================================== *)

Lemma header_rule (n : N) : In chr_eq (header n).
Proof. unfold header. apply in_or_app. left. simpl. tauto. Qed.

Lemma framed_cons (n : N) (t : pystr) (texts : list pystr) :
  framed n (t :: texts) = header n ++ t ++ footer n ++ framed (n + 1) texts.
Proof. reflexivity. Qed.

(** The longest of three texts is one of them and no shorter than any. *)
Lemma max_len_three (t1 t2 t3 : pystr) :
  let text := max_len t1 [t2; t3] in
  In text [t1; t2; t3]
  /\ List.length t1 <= List.length text
  /\ List.length t2 <= List.length text
  /\ List.length t3 <= List.length text.
Proof.
  unfold max_len. simpl.
  destruct (Nat.ltb_spec (List.length t1) (List.length t2)) as [H12|H12];
    [destruct (Nat.ltb_spec (List.length t2) (List.length t3)) as [H3|H3]
    |destruct (Nat.ltb_spec (List.length t1) (List.length t3)) as [H3|H3]];
    (split; [tauto | lia]).
Qed.

Lemma configs_distinct : NoDup [custom_config; config2; config3].
Proof.
  assert (forall a b : pystr, str_eqb a b = false -> a <> b) as Hne.
  { intros a b H E. apply str_eqb_eq in E. congruence. }
  repeat constructor; simpl; intros H;
    repeat (destruct H as [H|H]; [revert H; apply Hne; vm_compute; reflexivity|]);
    exact H.
Qed.

(* ================================================================== *)
(** * The answer of the model *)
(* ================================================================== *)

Lemma endswith_app (p s : pystr) : endswith p (s ++ p) = true.
Proof. unfold endswith. rewrite rev_app_distr. apply startswith_app. Qed.

(** An answer between the two fences loses exactly the fences. *)
Lemma unfence_fenced (text interior : pystr) :
  strip text = fence_open ++ interior ++ fence_close ->
  unfence text = strip interior.
Proof.
  intros H. unfold unfence. rewrite H, startswith_app.
  change (skipn 7 (fence_open ++ interior ++ fence_close))
    with (interior ++ fence_close).
  rewrite endswith_app, length_app.
  change (List.length fence_close) with 3.
  now rewrite Nat.add_sub, firstn_app, firstn_all, Nat.sub_diag, app_nil_r.
Qed.

Lemma endswith_iff (p s : pystr) :
  endswith p s = true <-> exists a, s = a ++ p.
Proof.
  unfold endswith. rewrite startswith_iff. split.
  - intros [r H]. exists (rev r).
    apply (f_equal (@rev N)) in H.
    now rewrite rev_involutive, rev_app_distr, rev_involutive in H.
  - intros [a ->]. exists (rev a). apply rev_app_distr.
Qed.

(** The two fences of a fenced answer do not overlap. *)
Lemma fenced_split (raw : pystr) :
  startswith fence_open raw = true -> endswith fence_close raw = true ->
  exists interior, raw = fence_open ++ interior ++ fence_close.
Proof.
  intros Ho Hc. apply startswith_iff in Ho as [rest ->].
  apply endswith_iff in Hc as [a Ha].
  apply app_eq_app in Ha as [l [[Ho Hc]|[-> ->]]].
  - destruct l as [|x l].
    + rewrite app_nil_r in Ho. simpl in Hc. subst a rest.
      exists []. reflexivity.
    + exfalso. cbv in Ho, Hc. injection Hc as <- Hc.
      do 8 (destruct a as [|? a]; [cbv in Ho; try discriminate Ho;
                                     injection Ho as <-; discriminate Hc|];
            try discriminate Ho; injection Ho as _ Ho).
  - now exists l.
Qed.

(* ================================================================== *)
(** * The loop over the files *)
(* ================================================================== *)

Section HandlerFacts.
Context {World image : Type}.
Variable convert_from_bytes : bytes -> World -> (pyerr + list image) * World.
Variable Image_open : bytes -> World -> (pyerr + image) * World.
Variable image_to_string : image -> pystr -> World -> (pyerr + pystr) * World.
Variable generate_content : pystr -> World -> (pyerr + pystr) * World.
Variable json_loads : pystr -> pyerr + json.
Variable isdecimal : N -> bool.
Variable prompt_template : pystr.

Local Abbreviation St := (state World image).
Local Abbreviation run_pages := (ocr_pages image_to_string).
Local Abbreviation run_image := (ocr_image Image_open image_to_string).
Local Abbreviation run_extract :=
  (extract convert_from_bytes Image_open image_to_string).
Local Abbreviation run_files :=
  (process_files convert_from_bytes Image_open image_to_string).
Local Abbreviation run_model := (ask_model (image:=image) generate_content json_loads).
Local Abbreviation handler :=
  (process_images convert_from_bytes Image_open image_to_string
     generate_content json_loads isdecimal prompt_template).
Local Abbreviation prompt_of := (prompt_of isdecimal prompt_template).

Lemma call_inv (A : Type) (f : World -> (pyerr + A) * World)
    (ev : pyerr + A -> event image) (st st' : St) (r : pyerr + A) :
  call f ev st = (r, st') ->
  exists w, f (world st) = (r, w) /\ st' = (w, log st ++ [ev r]).
Proof.
  unfold call. destruct (f (world st)) as [r' w]. intros H.
  injection H as -> <-. now exists w.
Qed.

Lemma bind_inv (E A B : Type) (c : M World image E A)
    (k : A -> M World image E B) (st st' : St) (b : B) :
  bind c k st = (inr b, st') ->
  exists a st1, c st = (inr a, st1) /\ k a st1 = (inr b, st').
Proof.
  unfold bind. destruct (c st) as [[e|a] st1]; [discriminate|].
  intros H. now exists a, st1.
Qed.

(** The pages of a PDF only add to the text. *)
Lemma ocr_pages_ok (images : list image) (all_text : pystr)
    (st st' : St) (r : pystr) :
  run_pages images all_text st = (inr r, st') ->
  exists t, r = all_text ++ t.
Proof.
  revert all_text st. induction images as [|img images IH];
    intros all_text st H.
  - injection H as <- _. exists []. now rewrite app_nil_r.
  - simpl in H. apply bind_inv in H as [text [st1 [_ H]]].
    apply IH in H as [t ->]. exists (text ++ nl ++ t).
    now rewrite <- !app_assoc.
Qed.

(** The branch of an image: what it calls and what it adds. *)
Lemma ocr_image_ok (file : UploadFile) (all_text : pystr)
    (st st' : St) (r : pystr) :
  run_image file all_text st = (inr r, st') ->
  exists img text1 text2 text3,
    log st' = log st
      ++ [Call_Image_open (contents file) (inr img);
          Call_image_to_string img custom_config (inr text1);
          Call_image_to_string img config2 (inr text2);
          Call_image_to_string img config3 (inr text3)]
    /\ r = all_text ++ max_len text1 [text2; text3] ++ nl.
Proof.
  unfold ocr_image. intros H.
  apply bind_inv in H as [img [s1 [H1 H]]].
  apply bind_inv in H as [text1 [s2 [H2 H]]].
  apply bind_inv in H as [text2 [s3 [H3 H]]].
  apply bind_inv in H as [text3 [s4 [H4 H]]].
  injection H as <- <-.
  apply call_inv in H1 as [w1 [_ ->]]. apply call_inv in H2 as [w2 [_ ->]].
  apply call_inv in H3 as [w3 [_ ->]]. apply call_inv in H4 as [w4 [_ ->]].
  exists img, text1, text2, text3. split; [|reflexivity].
  simpl. now rewrite <- !app_assoc.
Qed.

(** A file that is extracted adds its text and the closing banner, and
    moves the counter on by one. *)
Lemma extract_ok (file : UploadFile) (all_text : pystr) (n : N)
    (st st' : St) (r : pystr * N) :
  run_extract file all_text n st = (inr r, st') ->
  exists t, r = (all_text ++ t ++ footer n, (n + 1)%N).
Proof.
  unfold extract. intros H. apply bind_inv in H as [a [s1 [H1 H]]].
  injection H as <- _.
  destruct (opt_eqb (content_type file) (lit "application/pdf")).
  - apply bind_inv in H1 as [images [s2 [_ H1]]].
    apply ocr_pages_ok in H1 as [t ->]. exists t. now rewrite <- app_assoc.
  - apply ocr_image_ok in H1 as [img [t1 [t2 [t3 [_ ->]]]]].
    exists (max_len t1 [t2; t3] ++ nl). now rewrite <- !app_assoc.
Qed.

Lemma process_files_cons (file : UploadFile) (files : list UploadFile)
    (all_text : pystr) (n : N) (st : St) :
  run_files (file :: files) all_text n st
  = if negb (opt_in (content_type file) allowed_types) then
      (inl (HTTPException 400
              (lit "Unsupported file type: " ++ fmt (content_type file))), st)
    else
      match run_extract file (all_text ++ header n) n st with
      | (inr r, st1) => run_files files (fst r) (snd r) st1
      | (inl e, st1) =>
          (inl (HTTPException 500
                  (lit "Error processing file " ++ fmt (filename file)
                   ++ lit ": " ++ str_e e)), st1)
      end.
Proof.
  simpl. destruct (negb (opt_in (content_type file) allowed_types));
    [reflexivity|].
  unfold bind, try_except.
  now destruct (run_extract file (all_text ++ header n) n st) as [[e|r] st1].
Qed.

(** The loop over [pre ++ post] is the loop over [pre], then, if that
    went through, the loop over [post] from where it stopped. *)
Lemma process_files_app (pre post : list UploadFile) (all_text : pystr)
    (n : N) (st : St) :
  run_files (pre ++ post) all_text n st
  = match run_files pre all_text n st with
    | (inr r, st1) => run_files post (fst r) (snd r) st1
    | (inl e, st1) => (inl e, st1)
    end.
Proof.
  revert all_text n st. induction pre as [|f pre IH]; intros all_text n st.
  - reflexivity.
  - change ((f :: pre) ++ post) with (f :: (pre ++ post)).
    rewrite !process_files_cons.
    destruct (negb (opt_in (content_type f) allowed_types)); [reflexivity|].
    destruct (run_extract f (all_text ++ header n) n st) as [[e|r] st1];
      [reflexivity | apply IH].
Qed.

(** When the loop goes through, the text is the text it started with and
    one framed block per file, numbered from the counter on; the text
    inside the block of a file is what the [try] body added for it. *)
Lemma process_files_ok (files : list UploadFile) (all_text : pystr)
    (n : N) (st st' : St) (r : pystr * N) :
  run_files files all_text n st = (inr r, st') ->
  exists texts,
    Forall2 (extracted_as convert_from_bytes Image_open image_to_string)
      files texts
    /\ fst r = all_text ++ framed n texts
    /\ snd r = (n + N.of_nat (List.length files))%N.
Proof.
  revert all_text n st. induction files as [|f files IH];
    intros all_text n st H.
  - injection H as <- _. exists []. simpl.
    now rewrite app_nil_r, N.add_0_r.
  - rewrite process_files_cons in H.
    destruct (negb (opt_in (content_type f) allowed_types)); [discriminate|].
    destruct (run_extract f (all_text ++ header n) n st) as [[e|r1] st1] eqn:E;
      [discriminate|].
    destruct (extract_ok _ _ _ _ _ _ E) as [t ->].
    simpl fst in H. simpl snd in H.
    apply IH in H as [texts [Hall [Hfst Hsnd]]].
    exists (t :: texts). split; [|split].
    + constructor; [|exact Hall].
      exists (all_text ++ header n), n, st, st1. exact E.
    + rewrite Hfst, framed_cons, <- !app_assoc. reflexivity.
    + rewrite Hsnd. simpl List.length. lia.
Qed.

(** The text of a request with at least one file never strips to the
    empty string: the first banner is in it. *)
Lemma framed_text_not_blank (files : list UploadFile) (st st' : St)
    (r : pystr * N) :
  files <> [] -> run_files files [] 1%N st = (inr r, st') ->
  strip (fst r) <> [] /\ fst r <> [].
Proof.
  intros Hne H. apply process_files_ok in H as [texts [Hall [Hfst _]]].
  destruct Hall as [|f t files texts _ _]; [contradiction|].
  assert (In chr_eq (fst r)) as Hin.
  { rewrite Hfst. change ([] ++ framed 1 (t :: texts))
      with (header 1 ++ t ++ footer 1 ++ framed (1 + 1) texts).
    apply in_or_app. left. apply header_rule. }
  split.
  - now apply (strip_not_blank _ chr_eq).
  - intros E. rewrite E in Hin. contradiction.
Qed.

Lemma build_prompt_some (all_text : pystr) :
  all_text <> [] ->
  build_prompt isdecimal prompt_template all_text = Some (prompt_of all_text).
Proof.
  intros H. unfold build_prompt. now rewrite clean_ocr_text_some.
Qed.

(** Once the loop went through, the model is asked. *)
Lemma process_images_asks (files : list UploadFile) (st st1 : St)
    (r : pystr * N) :
  files <> [] -> run_files files [] 1%N st = (inr r, st1) ->
  handler files st = run_model (prompt_of (fst r)) st1.
Proof.
  intros Hne H. destruct (framed_text_not_blank _ _ _ _ Hne H) as [Hs Hr].
  unfold process_images. destruct files as [|f files]; [contradiction|].
  unfold bind. rewrite H.
  destruct (strip (fst r)); [contradiction|].
  now rewrite (build_prompt_some _ Hr).
Qed.

(** What the handler does with the text the model answered. *)
Lemma ask_model_answer (prompt text : pystr) (st : St) (w : World) :
  generate_content prompt (world st) = (inr text, w) ->
  run_model prompt st
  = (match json_loads (unfence text) with
     | inr v => inr (mkresponse v)
     | inl e =>
         inl (HTTPException 500
                (if is_JSONDecodeError e
                 then lit "Invalid JSON from Gemini: "
                      ++ firstn 200 (unfence text)
                      ++ lit "... Error: " ++ str_e e
                 else lit "Error processing with Gemini: " ++ str_e e))
     end,
     (w, log st ++ [Call_generate_content prompt (inr text)])).
Proof.
  intros H. unfold ask_model, do_generate, call. rewrite H.
  destruct (json_loads (unfence text)) as [e|v]; [|reflexivity].
  now destruct (is_JSONDecodeError e).
Qed.
(** The errors of the loop are the two it raises itself. *)
Lemma process_files_error (files : list UploadFile) (all_text : pystr)
    (n : N) (st st' : St) (e : exn) :
  run_files files all_text n st = (inl e, st') ->
  (exists ct, e = HTTPException 400 (lit "Unsupported file type: " ++ ct))
  \/ (exists detail, e = HTTPException 500 detail).
Proof.
  revert all_text n st. induction files as [|f files IH];
    intros all_text n st H; [discriminate|].
  rewrite process_files_cons in H.
  destruct (negb (opt_in (content_type f) allowed_types)).
  - injection H as <- _. left. now eexists.
  - destruct (run_extract f (all_text ++ header n) n st) as [[e1|r1] st1].
    + injection H as <- _. right. now eexists.
    + exact (IH _ _ _ H).
Qed.

(** An error of the loop is the answer to the request. *)
Lemma process_images_loop_error (files : list UploadFile) (st st1 : St)
    (e : exn) :
  files <> [] -> run_files files [] 1%N st = (inl e, st1) ->
  handler files st = (inl e, st1).
Proof.
  intros Hne H. destruct files as [|f files]; [contradiction|].
  unfold process_images, bind. now rewrite H.
Qed.

(** The guard on a blank text never fires: whatever OCR reads, the
    banners are in the text, so the error for a request without any
    text is never raised. *)
Lemma no_text_error_unreachable (files : list UploadFile) (st : St) :
  fst (handler files st)
  <> inl (HTTPException 400 (lit "No text extracted from images")).
Proof.
  destruct files as [|f files]; [discriminate|].
  assert (f :: files <> []) as Hne by discriminate.
  destruct (run_files (f :: files) [] 1%N st) as [[e|r] st1] eqn:E.
  - rewrite (process_images_loop_error _ _ _ _ Hne E).
    simpl. intros H.
    apply process_files_error in E as [[ct ->]|[detail ->]].
    + injection H as H. cbv in H. discriminate H.
    + discriminate H.
  - rewrite (process_images_asks _ _ _ _ Hne E).
    unfold ask_model, do_generate, call.
    destruct (generate_content (prompt_of (fst r)) (world st1)) as [[e|text] w].
    + destruct (is_JSONDecodeError e); simpl; intros H; discriminate H.
    + destruct (json_loads (unfence text)) as [e|v];
        [|simpl; intros H; discriminate H].
      destruct (is_JSONDecodeError e); simpl; intros H; discriminate H.
Qed.

End HandlerFacts.

Section OcrOnly.
Context {World image : Type}.
Variable convert_from_bytes : bytes -> World -> (pyerr + list image) * World.
Variable Image_open : bytes -> World -> (pyerr + image) * World.
Variable image_to_string : image -> pystr -> World -> (pyerr + pystr) * World.

Local Abbreviation St := (state World image).

Lemma ocr_only_ret (E A : Type) (a : A) :
  ocr_only (ret (World:=World) (image:=image) E a).
Proof.
  intros st r st' H. injection H as _ <-. exists [].
  now rewrite app_nil_r.
Qed.

Lemma ocr_only_call (A : Type) (f : World -> (pyerr + A) * World)
    (ev : pyerr + A -> event image) :
  (forall r, is_ocr_call (ev r) = true) -> ocr_only (call f ev).
Proof.
  intros Hev st r st' H. apply call_inv in H as [w [_ ->]].
  exists [ev r]. simpl. now rewrite Hev.
Qed.

Lemma ocr_only_bind (E A B : Type) (c : M World image E A)
    (k : A -> M World image E B) :
  ocr_only c -> (forall a, ocr_only (k a)) -> ocr_only (bind c k).
Proof.
  intros Hc Hk st r st' H. unfold bind in H.
  destruct (c st) as [[e|a] st1] eqn:Ec.
  - injection H as <- <-. exact (Hc _ _ _ Ec).
  - destruct (Hc _ _ _ Ec) as [evs1 [L1 F1]].
    destruct (Hk a _ _ _ H) as [evs2 [L2 F2]].
    exists (evs1 ++ evs2). rewrite L2, L1, <- app_assoc, forallb_app, F1, F2.
    now split.
Qed.

Lemma ocr_only_try (E A : Type) (c : M World image pyerr A) (h : pyerr -> E) :
  ocr_only c -> ocr_only (try_except c h).
Proof.
  intros Hc st r st' H. unfold try_except in H.
  destruct (c st) as [[e|a] st1] eqn:Ec; injection H as _ <-;
    exact (Hc _ _ _ Ec).
Qed.

Lemma ocr_only_pages (images : list image) (all_text : pystr) :
  ocr_only (ocr_pages image_to_string images all_text).
Proof.
  revert all_text. induction images as [|img images IH]; intros all_text.
  - apply ocr_only_ret.
  - apply ocr_only_bind; [now apply ocr_only_call | intros text; apply IH].
Qed.

Lemma ocr_only_image (file : UploadFile) (all_text : pystr) :
  ocr_only (ocr_image Image_open image_to_string file all_text).
Proof.
  unfold ocr_image.
  repeat (apply ocr_only_bind; [now apply ocr_only_call | intros ?]).
  apply ocr_only_ret.
Qed.

Lemma ocr_only_extract (file : UploadFile) (all_text : pystr) (n : N) :
  ocr_only (extract convert_from_bytes Image_open image_to_string
              file all_text n).
Proof.
  unfold extract. apply ocr_only_bind; [|intros a; apply ocr_only_ret].
  destruct (opt_eqb (content_type file) (lit "application/pdf")).
  - apply ocr_only_bind; [now apply ocr_only_call|].
    intros images. apply ocr_only_pages.
  - apply ocr_only_image.
Qed.

(** The loop over the files never calls the model. *)
Lemma ocr_only_files (files : list UploadFile) (all_text : pystr) (n : N) :
  ocr_only (process_files convert_from_bytes Image_open image_to_string
              files all_text n).
Proof.
  revert all_text n. induction files as [|f files IH]; intros all_text n.
  - apply ocr_only_ret.
  - simpl. destruct (negb (opt_in (content_type f) allowed_types)).
    + intros st r st' H. injection H as _ <-. exists [].
      now rewrite app_nil_r.
    + apply ocr_only_bind; [|intros r; apply IH].
      apply ocr_only_try, ocr_only_extract.
Qed.
End OcrOnly.

(* ================================================================== *)
(** * The properties of the specification *)
(* ================================================================== *)

(** C2.  The normalizer is idempotent: applied to its own result,
    [clean_ocr_text] gives that result again, for every argument ([None]
    and the empty string included) and whatever the class [\d] is. *)
Theorem clean_ocr_text_idempotent (isdecimal : N -> bool) (text : option pystr) :
  clean_ocr_text isdecimal (clean_ocr_text isdecimal text)
  = clean_ocr_text isdecimal text.
Proof.
  destruct text as [[|c t]|]; try reflexivity.
  rewrite clean_ocr_text_some by discriminate.
  destruct (normalize isdecimal (c :: t)) as [|c' t'] eqn:E; [reflexivity|].
  rewrite clean_ocr_text_some by discriminate.
  now rewrite <- E, normalize_idem.
Qed.

(** C10.  For a non-empty string the result of [clean_ocr_text] holds no
    tab, no two adjacent spaces and no three adjacent newlines, and
    neither starts nor ends with whitespace; [None] and the empty string
    are returned as they are. *)
Theorem clean_ocr_text_shape (isdecimal : N -> bool) :
  (forall text : pystr, text <> [] ->
     exists out,
       clean_ocr_text isdecimal (Some text) = Some out
       /\ ~ In chr_tab out
       /\ contains [chr_space; chr_space] out = false
       /\ contains [chr_nl; chr_nl; chr_nl] out = false
       /\ (forall c rest, out = c :: rest -> isspace c = false)
       /\ (forall front c, out = front ++ [c] -> isspace c = false))
  /\ clean_ocr_text isdecimal None = None
  /\ clean_ocr_text isdecimal (Some []) = Some [].
Proof.
  split; [|split; reflexivity].
  intros text Hne. exists (normalize isdecimal text).
  split; [now apply clean_ocr_text_some|].
  pose proof (normalize_single_spaced isdecimal text) as H1.
  pose proof (normalize_two_newlines isdecimal text) as H2.
  pose proof (normalize_stripped isdecimal text) as H3.
  split; [now apply single_spaced_no_tab|].
  split; [now apply single_spaced_no_double|].
  split; [now apply two_newlines_no_triple|].
  split.
  - intros c rest E. rewrite E in H3. exact (strip_head _ _ _ H3).
  - intros front c E. rewrite E in H3. exact (strip_last _ _ _ H3).
Qed.

Section HandlerProperties.
Context {World image : Type}.
Variable convert_from_bytes : bytes -> World -> (pyerr + list image) * World.
Variable Image_open : bytes -> World -> (pyerr + image) * World.
Variable image_to_string : image -> pystr -> World -> (pyerr + pystr) * World.
Variable generate_content : pystr -> World -> (pyerr + pystr) * World.
Variable json_loads : pystr -> pyerr + json.
Variable isdecimal : N -> bool.
Variable prompt_template : pystr.

Local Abbreviation St := (state World image).
Local Abbreviation run_extract :=
  (extract convert_from_bytes Image_open image_to_string).
Local Abbreviation run_files :=
  (process_files convert_from_bytes Image_open image_to_string).
Local Abbreviation run_model :=
  (ask_model (image:=image) generate_content json_loads).
Local Abbreviation handler :=
  (process_images convert_from_bytes Image_open image_to_string
     generate_content json_loads isdecimal prompt_template).
Local Abbreviation prompt_of := (prompt_of isdecimal prompt_template).

(** C8.  An empty list of files is answered with the error 400
    "No files provided"; the state of the collaborators and the log of
    calls are as before, so neither OCR, nor the conversion of a PDF, nor
    the model was called. *)
Theorem process_images_no_files (st : St) :
  handler [] st = (inl (HTTPException 400 (lit "No files provided")), st).
Proof. reflexivity. Qed.

(** C1, as the code has it.  When the files before the first file of a
    type that is not allowed were all extracted, the request is answered
    with the error 400 that names the type, and the handler stops in the
    state it had reached after those files: the calls of OCR for them
    were made, none was made for the refused file or for a later one, and
    the model was not called. *)
Theorem process_images_unsupported_type (pre post : list UploadFile)
    (file : UploadFile) (st st1 : St) (r : pystr * N) :
  run_files pre [] 1%N st = (inr r, st1) ->
  opt_in (content_type file) allowed_types = false ->
  handler (pre ++ file :: post) st
  = (inl (HTTPException 400
            (lit "Unsupported file type: " ++ fmt (content_type file))), st1)
  /\ exists evs,
       log st1 = log st ++ evs /\ forallb (@is_ocr_call image) evs = true.
Proof.
  intros Hpre Hct. split.
  - apply process_images_loop_error.
    + now destruct pre.
    + now rewrite process_files_app, Hpre, process_files_cons, Hct.
  - exact (ocr_only_files _ _ _ _ _ _ _ _ _ Hpre).
Qed.

(** C6.  When the files before the one at position k were extracted and
    the extraction of that one raises [e], the request fails with the
    error 500 whose detail names the file and [e]; the handler stops in
    the state in which the exception was raised, so nothing is read from
    the files after it, and nothing is returned. *)
Theorem process_images_extraction_error (pre post : list UploadFile)
    (file : UploadFile) (st st1 st2 : St) (r : pystr * N) (e : pyerr) :
  run_files pre [] 1%N st = (inr r, st1) ->
  opt_in (content_type file) allowed_types = true ->
  run_extract file (fst r ++ header (snd r)) (snd r) st1 = (inl e, st2) ->
  handler (pre ++ file :: post) st
  = (inl (HTTPException 500
            (lit "Error processing file " ++ fmt (filename file)
             ++ lit ": " ++ str_e e)), st2).
Proof.
  intros Hpre Hct He. apply process_images_loop_error.
  - now destruct pre.
  - now rewrite process_files_app, Hpre, process_files_cons, Hct, He.
Qed.

(** C7.  The extraction of an image that goes through opens the image,
    runs OCR on it three times, once under each of three different
    configurations, and calls nothing else; the text it adds before the
    closing banner is one of the three results, no shorter than any of
    them, and a newline. *)
Theorem ocr_image_three_runs (file : UploadFile) (all_text : pystr) (n : N)
    (st st' : St) (r : pystr * N) :
  content_type file = Some (lit "image/jpeg")
  \/ content_type file = Some (lit "image/png") ->
  run_extract file all_text n st = (inr r, st') ->
  exists img text1 text2 text3 text,
    log st' = log st
      ++ [Call_Image_open (contents file) (inr img);
          Call_image_to_string img custom_config (inr text1);
          Call_image_to_string img config2 (inr text2);
          Call_image_to_string img config3 (inr text3)]
    /\ NoDup [custom_config; config2; config3]
    /\ In text [text1; text2; text3]
    /\ List.length text1 <= List.length text
    /\ List.length text2 <= List.length text
    /\ List.length text3 <= List.length text
    /\ fst r = all_text ++ (text ++ nl) ++ footer n.
Proof.
  intros Hct H. unfold extract in H.
  assert (opt_eqb (content_type file) (lit "application/pdf") = false) as Hpdf
    by (destruct Hct as [-> | ->]; reflexivity).
  rewrite Hpdf in H. apply bind_inv in H as [a [s1 [H1 H]]].
  injection H as <- <-.
  apply ocr_image_ok in H1 as [img [t1 [t2 [t3 [Hlog ->]]]]].
  destruct (max_len_three t1 t2 t3) as [Hin [L1 [L2 L3]]].
  exists img, t1, t2, t3, (max_len t1 [t2; t3]).
  split; [exact Hlog|]. split; [exact configs_distinct|].
  split; [exact Hin|]. split; [exact L1|]. split; [exact L2|].
  split; [exact L3|]. simpl fst. now rewrite <- !app_assoc.
Qed.

(** C5.  Once the model has answered [text]: if the answer, stripped,
    starts with the opening fence and ends with the closing fence, it is
    the two fences around an interior, and what is parsed is that interior
    with the whitespace around it stripped, and nothing of the fences; the
    parsed value is returned; and when [json.loads] rejects what it is
    given, the request fails with the error 500 whose detail holds the
    first 200 characters of the rejected text. *)
Theorem model_answer_parsed (files : list UploadFile) (st st1 : St)
    (r : pystr * N) (text : pystr) (w : World) :
  files <> [] ->
  run_files files [] 1%N st = (inr r, st1) ->
  generate_content (prompt_of (fst r)) (world st1) = (inr text, w) ->
  (startswith fence_open (strip text) = true ->
   endswith fence_close (strip text) = true ->
   exists interior,
     strip text = fence_open ++ interior ++ fence_close
     /\ unfence text = strip interior)
  /\ (forall v,
        json_loads (unfence text) = inr v ->
        handler files st
        = (inr (mkresponse v),
           (w, log st1 ++ [Call_generate_content (prompt_of (fst r)) (inr text)])))
  /\ (forall e,
        json_loads (unfence text) = inl e -> is_JSONDecodeError e = true ->
        handler files st
        = (inl (HTTPException 500
                  (lit "Invalid JSON from Gemini: "
                   ++ firstn 200 (unfence text)
                   ++ lit "... Error: " ++ str_e e)),
           (w, log st1 ++ [Call_generate_content (prompt_of (fst r)) (inr text)]))).
Proof.
  intros Hne Hfiles Hgen. split; [|split].
  - intros Ho Hc. destruct (fenced_split _ Ho Hc) as [interior Hs].
    exists interior. split; [exact Hs | now apply unfence_fenced].
  - intros v Hv.
    rewrite (process_images_asks _ _ _ generate_content json_loads isdecimal
               prompt_template _ _ _ _ Hne Hfiles).
    now rewrite (ask_model_answer _ _ _ _ _ _ Hgen), Hv.
  - intros e He Hj.
    rewrite (process_images_asks _ _ _ generate_content json_loads isdecimal
               prompt_template _ _ _ _ Hne Hfiles).
    now rewrite (ask_model_answer _ _ _ _ _ _ Hgen), He, Hj.
Qed.

(** C9.  A request that succeeds returns under ["data"] the value that
    [json.loads] made of the cleaned answer of the model; and whatever
    value [json.loads] makes of it, array or not, is returned as it is:
    nothing looks into the value. *)
Theorem process_images_returns_parsed (files : list UploadFile) (st : St) :
  (forall resp st2,
     handler files st = (inr resp, st2) ->
     exists r st1 text,
       run_files files [] 1%N st = (inr r, st1)
       /\ generate_content (prompt_of (fst r)) (world st1)
          = (inr text, world st2)
       /\ json_loads (unfence text) = inr (data resp))
  /\ (forall r st1 text w v,
        files <> [] ->
        run_files files [] 1%N st = (inr r, st1) ->
        generate_content (prompt_of (fst r)) (world st1) = (inr text, w) ->
        json_loads (unfence text) = inr v ->
        handler files st
        = (inr (mkresponse v),
           (w, log st1 ++ [Call_generate_content (prompt_of (fst r)) (inr text)]))).
Proof.
  split.
  - intros resp st2 H. destruct files as [|f files]; [discriminate|].
    assert (f :: files <> []) as Hne by discriminate.
    destruct (run_files (f :: files) [] 1%N st) as [[e|r] st1] eqn:E.
    + rewrite (process_images_loop_error _ _ _ generate_content json_loads
                 isdecimal prompt_template _ _ _ _ Hne E) in H.
      discriminate.
    + rewrite (process_images_asks _ _ _ generate_content json_loads isdecimal
                 prompt_template _ _ _ _ Hne E) in H.
      exists r, st1.
      destruct (generate_content (prompt_of (fst r)) (world st1))
        as [[e|text] w] eqn:G.
      * unfold ask_model, do_generate, call in H. rewrite G in H.
        destruct (is_JSONDecodeError e); discriminate.
      * rewrite (ask_model_answer _ _ _ _ _ _ G) in H. exists text.
        destruct (json_loads (unfence text)) as [e|v]; [discriminate|].
        injection H as <- <-. now split.
  - intros r st1 text w v Hne Hfiles Hgen Hv.
    rewrite (process_images_asks _ _ _ generate_content json_loads isdecimal
               prompt_template _ _ _ _ Hne Hfiles).
    now rewrite (ask_model_answer _ _ _ _ _ _ Hgen), Hv.
Qed.
End HandlerProperties.

(* ================================================================== *)
(** * The properties at work on concrete requests *)
(* ================================================================== *)

(** [str.replace] goes from the left and does not look back. *)
Example replace_run :
  replace (lit "aa") (lit "a") (lit "aaaaa") = lit "aaa".
Proof. reflexivity. Qed.

(** Five newlines with whitespace between them become two. *)
Example blank_lines_run :
  re_sub match_blank_lines
    (lit "a" ++ [chr_nl; chr_space; chr_nl; chr_tab; chr_nl; chr_nl; chr_nl]
     ++ lit " b")
  = lit "a" ++ [chr_nl; chr_nl] ++ lit " b".
Proof. reflexivity. Qed.

Example clean_ocr_text_run :
  clean_ocr_text ascii_digit (Some Demo.smudged)
  = Some (lit "Quantity: 3" ++ [chr_nl; chr_nl] ++ lit " Amount: 1.50").
Proof. reflexivity. Qed.

Example process_images_run :
  fst (Demo.run Demo.fenced_answer Demo.two_bills)
  = inr (mkresponse (JArray [])).
Proof. vm_compute. reflexivity. Qed.

Lemma clean_ocr_text_shape_witness :
  Demo.smudged <> []
  /\ exists out,
       clean_ocr_text ascii_digit (Some Demo.smudged) = Some out
       /\ ~ In chr_tab out
       /\ contains [chr_space; chr_space] out = false
       /\ contains [chr_nl; chr_nl; chr_nl] out = false.
Proof.
  assert (Demo.smudged <> []) as Hne by (vm_compute; discriminate).
  split; [exact Hne|].
  destruct (proj1 (clean_ocr_text_shape ascii_digit) _ Hne)
    as [out [H1 [H2 [H3 [H4 _]]]]].
  exists out. repeat split; assumption.
Defined.

Lemma ocr_image_three_runs_witness :
  exists r st',
    Demo.extract_one (Demo.png "a.png" "Rice 50") [] 1%N (tt, []) = (inr r, st')
    /\ exists img text1 text2 text3 text,
         log st'
         = [Call_Image_open (Demo.bytes_of "Rice 50") (inr img);
            Call_image_to_string img custom_config (inr text1);
            Call_image_to_string img config2 (inr text2);
            Call_image_to_string img config3 (inr text3)]
         /\ In text [text1; text2; text3]
         /\ List.length text1 <= List.length text
         /\ List.length text2 <= List.length text
         /\ List.length text3 <= List.length text
         /\ fst r = (text ++ nl) ++ footer 1.
Proof.
  eexists. eexists. split; [vm_compute; reflexivity|].
  destruct (ocr_image_three_runs Demo.convert_from_bytes Demo.Image_open
              Demo.image_to_string (Demo.png "a.png" "Rice 50") [] 1%N
              (tt, []) _ _ (or_intror eq_refl) eq_refl)
    as [img [t1 [t2 [t3 [text [H1 [_ [H2 [H3 [H4 [H5 H6]]]]]]]]]]].
  exists img, t1, t2, t3, text. repeat split; assumption.
Defined.

Lemma process_images_extraction_error_witness :
  exists r st1 e st2,
    Demo.files_loop [Demo.png "a.png" "Rice 50"] [] 1%N (tt, []) = (inr r, st1)
    /\ opt_in (content_type (Demo.png "empty.png" "")) allowed_types = true
    /\ Demo.extract_one (Demo.png "empty.png" "")
         (fst r ++ header (snd r)) (snd r) st1 = (inl e, st2)
    /\ Demo.run Demo.fenced_answer Demo.broken
       = (inl (HTTPException 500
                 (lit "Error processing file empty.png: cannot identify image file")),
          st2).
Proof.
  eexists. eexists. eexists. eexists.
  split; [vm_compute; reflexivity|]. split; [reflexivity|].
  split; [vm_compute; reflexivity|].
  exact (process_images_extraction_error Demo.convert_from_bytes
           Demo.Image_open Demo.image_to_string
           (Demo.generate_content Demo.fenced_answer) Demo.json_loads
           ascii_digit Demo.template
           [Demo.png "a.png" "Rice 50"] [Demo.png "c.png" "Tea 30"]
           (Demo.png "empty.png" "") (tt, []) _ _ _ _ eq_refl eq_refl eq_refl).
Defined.

Lemma process_images_unsupported_type_witness :
  exists r st1,
    Demo.files_loop [Demo.png "a.png" "Rice 50"] [] 1%N (tt, []) = (inr r, st1)
    /\ opt_in (content_type (Demo.txt "notes.txt" "hello")) allowed_types = false
    /\ Demo.run Demo.fenced_answer Demo.mixed
       = (inl (HTTPException 400 (lit "Unsupported file type: text/plain")), st1).
Proof.
  eexists. eexists. split; [vm_compute; reflexivity|]. split; [reflexivity|].
  exact (proj1 (process_images_unsupported_type Demo.convert_from_bytes
           Demo.Image_open Demo.image_to_string
           (Demo.generate_content Demo.fenced_answer) Demo.json_loads
           ascii_digit Demo.template
           [Demo.png "a.png" "Rice 50"] [Demo.pdf "b.pdf" "Oil 150"]
           (Demo.txt "notes.txt" "hello") (tt, []) _ _ eq_refl eq_refl)).
Defined.

(** C1, as the specification has it, fails: the second file of the request
    is refused, yet OCR has read the first one by then. *)
Lemma rejected_before_ocr_counterexample :
  Exists (fun f => opt_in (content_type f) allowed_types = false) Demo.mixed
  /\ ~ rejected_before_ocr (Demo.run Demo.fenced_answer Demo.mixed).
Proof.
  split.
  - apply Exists_cons_tl, Exists_cons_hd. reflexivity.
  - intros [_ H]. vm_compute in H. discriminate H.
Qed.

Lemma model_answer_parsed_witness :
  Demo.two_bills <> []
  /\ exists r st1,
       Demo.files_loop Demo.two_bills [] 1%N (tt, []) = (inr r, st1)
       /\ Demo.generate_content Demo.fenced_answer
            (prompt_of ascii_digit Demo.template (fst r)) (world st1)
          = (inr Demo.fenced_answer, tt)
       /\ (exists interior,
           strip Demo.fenced_answer = fence_open ++ interior ++ fence_close
           /\ unfence Demo.fenced_answer = strip interior)
       /\ fst (Demo.run Demo.fenced_answer Demo.two_bills)
          = inr (mkresponse (JArray []))
       /\ fst (Demo.run Demo.bad_answer Demo.two_bills)
          = inl (HTTPException 500
                   (lit "Invalid JSON from Gemini: Sorry, no items.... Error: Expecting value: line 1 column 1 (char 0)")).
Proof.
  assert (Demo.two_bills <> []) as Hne by discriminate.
  split; [exact Hne|].
  eexists. eexists. split; [vm_compute; reflexivity|].
  split; [reflexivity|].
  destruct (model_answer_parsed Demo.convert_from_bytes Demo.Image_open
              Demo.image_to_string (Demo.generate_content Demo.fenced_answer)
              Demo.json_loads ascii_digit Demo.template
              Demo.two_bills (tt, []) _ _ Demo.fenced_answer tt
              Hne eq_refl eq_refl) as [H1 [H2 _]].
  destruct (model_answer_parsed Demo.convert_from_bytes Demo.Image_open
              Demo.image_to_string (Demo.generate_content Demo.bad_answer)
              Demo.json_loads ascii_digit Demo.template
              Demo.two_bills (tt, []) _ _ Demo.bad_answer tt
              Hne eq_refl eq_refl) as [_ [_ H3]].
  split; [|split].
  - exact (H1 eq_refl eq_refl).
  - unfold Demo.run. now rewrite (H2 (JArray []) eq_refl).
  - unfold Demo.run. now rewrite (H3 _ eq_refl eq_refl).
Defined.

Lemma process_images_returns_parsed_witness :
  Demo.two_bills <> []
  /\ exists r st1,
       Demo.files_loop Demo.two_bills [] 1%N (tt, []) = (inr r, st1)
       /\ Demo.generate_content (lit "null")
            (prompt_of ascii_digit Demo.template (fst r)) (world st1)
          = (inr (lit "null"), tt)
       /\ Demo.json_loads (unfence (lit "null")) = inr JNull
       /\ fst (Demo.run (lit "null") Demo.two_bills) = inr (mkresponse JNull).
Proof.
  assert (Demo.two_bills <> []) as Hne by discriminate.
  split; [exact Hne|].
  eexists. eexists. split; [vm_compute; reflexivity|].
  split; [reflexivity|]. split; [reflexivity|].
  unfold Demo.run.
  now rewrite (proj2 (process_images_returns_parsed Demo.convert_from_bytes
                 Demo.Image_open Demo.image_to_string
                 (Demo.generate_content (lit "null")) Demo.json_loads
                 ascii_digit Demo.template Demo.two_bills (tt, []))
               _ _ (lit "null") tt JNull Hne eq_refl eq_refl eq_refl).
Defined.

(** C3 fails on the code.  One blank image is uploaded; each of the three
    runs of OCR comes back with the empty string; the request is not
    refused: the model is called, and what it answers is returned. *)
Theorem blank_request_reaches_model :
  forallb Demo.read_nothing
    (log (snd (Demo.run_blank (lit "[]") Demo.blank_request))) = true
  /\ existsb (@is_model_call bytes)
       (log (snd (Demo.run_blank (lit "[]") Demo.blank_request))) = true
  /\ fst (Demo.run_blank (lit "[]") Demo.blank_request)
     = inr (mkresponse (JArray [])).
Proof. vm_compute. repeat split. Qed.

(* ================================================================== *)
(** * Words *)
(* ================================================================== *)

Lemma words_from_nospace (a cur x : pystr) :
  no_space a = true -> words_from cur (a ++ x) = words_from (cur ++ a) x.
Proof.
  revert cur. induction a as [|c a IH]; intros cur Ha; simpl.
  - now rewrite app_nil_r.
  - apply no_space_cons in Ha as [Hc Ha]. rewrite Hc, (IH _ Ha).
    now rewrite <- app_assoc.
Qed.

Lemma words_from_space (w cur x : pystr) :
  w <> [] -> forallb isspace w = true ->
  words_from cur (w ++ x) = emit cur ++ words_from [] x.
Proof.
  intros Hne Hw. destruct w as [|c w]; [contradiction|]. clear Hne.
  simpl in Hw. apply andb_true_iff in Hw as [Hc Hw]. simpl. rewrite Hc.
  f_equal. clear c Hc. induction w as [|c w IH]; [reflexivity|].
  simpl in Hw. apply andb_true_iff in Hw as [Hc Hw]. simpl. rewrite Hc.
  now apply IH.
Qed.

Lemma words_from_spaces_only (w cur : pystr) :
  forallb isspace w = true -> words_from cur w = emit cur.
Proof.
  intros Hw. destruct w as [|c w]; [reflexivity|].
  rewrite <- (app_nil_r (c :: w)), words_from_space by (discriminate || exact Hw).
  simpl. now rewrite app_nil_r.
Qed.

Lemma words_app_spaces_r (s w cur : pystr) :
  forallb isspace w = true -> words_from cur (s ++ w) = words_from cur s.
Proof.
  intros Hw. revert cur. induction s as [|c s IH]; intros cur; simpl.
  - now apply words_from_spaces_only.
  - destruct (isspace c); [f_equal|]; apply IH.
Qed.

Lemma words_app_spaces_l (w s : pystr) :
  forallb isspace w = true -> words (w ++ s) = words s.
Proof.
  intros Hw. unfold words. destruct w as [|c w]; [reflexivity|].
  now rewrite words_from_space by (discriminate || exact Hw).
Qed.

(** A text is one word, or a first word, a whitespace character and the
    rest. *)
Lemma first_space (s : pystr) :
  no_space s = true
  \/ exists a c b, s = a ++ c :: b /\ no_space a = true /\ isspace c = true.
Proof.
  induction s as [|x s IH]; [now left|].
  destruct (isspace x) eqn:Ex.
  - right. exists [], x, s. now split.
  - destruct IH as [Hs|[a [c [b [-> [Ha Hc]]]]]].
    + left. unfold no_space. simpl. now rewrite Ex.
    + right. exists (x :: a), c, b. split; [reflexivity|]. split; [|exact Hc].
      unfold no_space. simpl. now rewrite Ex.
Qed.

Lemma words_nospace (s : pystr) : no_space s = true -> words s = emit s.
Proof.
  intros Hs. unfold words.
  rewrite <- (app_nil_r s) at 1. now rewrite words_from_nospace.
Qed.

Lemma words_split (a b : pystr) (c : N) :
  no_space a = true -> isspace c = true ->
  words (a ++ c :: b) = emit a ++ words b.
Proof.
  intros Ha Hc. unfold words. rewrite words_from_nospace by exact Ha.
  simpl. now rewrite Hc.
Qed.

(** A text without words is a text of whitespace. *)
Lemma words_nil_iff (s : pystr) :
  words s = [] <-> forallb isspace s = true.
Proof.
  split.
  - induction s as [|c s IH]; [reflexivity|]. unfold words. simpl.
    destruct (isspace c) eqn:Ec; [exact IH|].
    intros H. exfalso.
    destruct (first_space s) as [Hs|[a [x [b [-> [Ha Hx]]]]]].
    + rewrite <- (app_nil_r s), words_from_nospace in H by exact Hs. discriminate.
    + rewrite words_from_nospace in H by exact Ha. simpl in H.
      rewrite Hx in H. discriminate.
  - intros H. unfold words. now rewrite words_from_spaces_only.
Qed.

(* ================================================================== *)
(** * The whitespace steps keep the words *)
(* ================================================================== *)

Lemma space_sub_words (m : matcher) (s : pystr) :
  space_taking m -> space_matcher m ->
  forall cur, words_from cur (re_sub m s) = words_from cur s.
Proof.
  intros Ht Hm.
  apply (re_sub_ind m
    (fun s out => forall cur, words_from cur out = words_from cur s)).
  - intros t repl rest E. destruct (Ht _ _ _ E) as [mt [H1 [H2 _]]].
    now exists mt.
  - reflexivity.
  - intros c t E IH cur. simpl. destruct (isspace c); [f_equal|]; apply IH.
  - intros t repl mt0 rest E _ _ IH cur.
    destruct (Ht _ _ _ E) as [mt [Hmt [-> Hw]]].
    destruct (Hm _ _ _ E) as [Hr Hrw].
    now rewrite !words_from_space, IH by assumption.
Qed.

Lemma isblank_isspace (c : N) : isblank c = true -> isspace c = true.
Proof.
  unfold isblank. intros H. apply orb_true_iff in H as [H|H];
    apply N.eqb_eq in H; subst c; reflexivity.
Qed.

Lemma forallb_weaken (f g : N -> bool) (l : pystr) :
  (forall c, f c = true -> g c = true) ->
  forallb f l = true -> forallb g l = true.
Proof.
  intros Hfg. rewrite !forallb_forall. intros H c Hc. now apply Hfg, H.
Qed.

Lemma match_blanks_taking : space_taking match_blanks.
Proof.
  intros s repl rest H. destruct s as [|c s]; [discriminate|].
  rewrite match_blanks_cons in H. destruct (isblank c) eqn:Ec; [|discriminate].
  injection H as _ <-.
  destruct (dropwhile_suffix isblank s) as [a [Ha Hw]].
  exists (c :: a). split; [discriminate|]. split; [simpl; now f_equal|].
  simpl. rewrite (isblank_isspace _ Ec). simpl.
  exact (forallb_weaken _ _ _ isblank_isspace Hw).
Qed.

(** What a greedy star before [k] takes. *)
Lemma re_star_hit (A : Type) (cls : N -> bool) (k : pystr -> option A)
    (s : pystr) (r : A) :
  re_star cls k s = Some r ->
  exists a b, s = a ++ b /\ forallb cls a = true /\ k b = Some r.
Proof.
  induction s as [|c s IH]; simpl.
  - intros H. now exists [], [].
  - assert (k (c :: s) = Some r ->
            exists a b, c :: s = a ++ b /\ forallb cls a = true /\ k b = Some r)
      as Hstop by (intros H; now exists [], (c :: s)).
    destruct (cls c) eqn:Ec; [|exact Hstop].
    destruct (re_star cls k s) as [r'|]; [|exact Hstop].
    intros H. destruct (IH H) as [a [b [-> [Ha Hk]]]].
    exists (c :: a), b. split; [reflexivity|]. split; [|exact Hk].
    simpl. now rewrite Ec.
Qed.

Lemma re_one_hit (A : Type) (cls : N -> bool) (k : pystr -> option A)
    (s : pystr) (r : A) :
  re_one cls k s = Some r ->
  exists c b, s = c :: b /\ cls c = true /\ k b = Some r.
Proof.
  destruct s as [|c s]; simpl; [discriminate|].
  destruct (cls c) eqn:Ec; [|discriminate]. intros H. now exists c, s.
Qed.

Lemma match_blank_lines_taking : space_taking match_blank_lines.
Proof.
  intros s repl rest H. unfold match_blank_lines in H.
  apply re_one_hit in H as [c1 [s1 [-> [H1 H]]]].
  apply re_star_hit in H as [a1 [b1 [-> [Ha1 H]]]].
  apply re_one_hit in H as [c2 [s2 [-> [H2 H]]]].
  apply re_star_hit in H as [a2 [b2 [-> [Ha2 H]]]].
  apply re_one_hit in H as [c3 [s3 [-> [H3 H]]]].
  injection H as _ ->.
  exists (c1 :: a1 ++ c2 :: a2 ++ [c3]). split; [discriminate|]. split.
  - simpl. rewrite <- app_assoc. simpl. now rewrite <- app_assoc.
  - simpl. rewrite !forallb_app. simpl. rewrite !forallb_app. simpl.
    now rewrite (is_nl_isspace _ H1), (is_nl_isspace _ H2),
      (is_nl_isspace _ H3), Ha1, Ha2.
Qed.

Lemma strip_words (s : pystr) : words (strip s) = words s.
Proof.
  destruct (strip_infix s) as [a [b [Hs [Ha Hb]]]].
  rewrite Hs at 2. rewrite (words_app_spaces_l _ _ Ha).
  unfold words. now rewrite (words_app_spaces_r _ _ _ Hb).
Qed.

(* ================================================================== *)
(** * The replacements work word by word *)
(* ================================================================== *)

Lemma startswith_before_space (old a b : pystr) (c : N) :
  no_space old = true -> isspace c = true ->
  startswith old (a ++ c :: b) = startswith old a.
Proof.
  intros Ho Hc. revert a. induction old as [|x old IH]; intros a; [reflexivity|].
  apply no_space_cons in Ho as [Hx Ho]. destruct a as [|y a]; simpl.
  - destruct (N.eqb_spec x c) as [->|_]; [congruence | reflexivity].
  - now rewrite (IH Ho).
Qed.

Lemma no_space_app (a b : pystr) :
  no_space (a ++ b) = no_space a && no_space b.
Proof. unfold no_space. apply forallb_app. Qed.

(** [str.replace] does not reach across a whitespace character. *)
Lemma replace_split (old new a b : pystr) (c : N) :
  old <> [] -> no_space old = true -> isspace c = true ->
  replace old new (a ++ c :: b)
  = replace old new a ++ c :: replace old new b.
Proof.
  intros Hne Ho Hc. unfold replace.
  remember (List.length a) as n eqn:Hn. revert a Hn.
  induction n as [n IH] using lt_wf_ind. intros a Hn.
  destruct a as [|y a].
  - simpl app. rewrite re_sub_miss; [reflexivity|].
    apply match_literal_miss.
    pose proof (startswith_before_space old [] b c Ho Hc) as H0.
    simpl app in H0. rewrite H0, startswith_nil_r.
    apply nonempty_iff in Hne. now rewrite Hne.
  - destruct (startswith old (y :: a)) eqn:E.
    + pose proof (startswith_skipn _ _ E) as Hs.
      set (r := skipn (List.length old) (y :: a)) in *.
      assert (match_literal old new (y :: a) = Some (new, r)) as M1
        by (unfold match_literal; now rewrite E).
      assert (match_literal old new ((y :: a) ++ c :: b)
              = Some (new, r ++ c :: b)) as M2.
      { unfold match_literal.
        rewrite (startswith_before_space old _ b c Ho Hc), E. f_equal. f_equal.
        rewrite Hs, <- app_assoc, skipn_app, skipn_all, Nat.sub_diag.
        reflexivity. }
      rewrite (re_sub_hit _ _ _ old _ M1 Hne Hs).
      rewrite (re_sub_hit _ _ _ old _ M2 Hne)
        by (rewrite Hs at 1; now rewrite <- app_assoc).
      rewrite <- app_assoc. f_equal.
      apply (IH (List.length r)); [|reflexivity].
      rewrite Hn, Hs, length_app. destruct old; [contradiction | simpl; lia].
    + assert (match_literal old new ((y :: a) ++ c :: b) = None) as M2.
      { apply match_literal_miss.
        now rewrite (startswith_before_space old _ b c Ho Hc). }
      assert (match_literal old new (y :: a) = None) as M1
        by now apply match_literal_miss.
      change ((y :: a) ++ c :: b) with (y :: (a ++ c :: b)) in *.
      rewrite (re_sub_miss _ _ _ M1), (re_sub_miss _ _ _ M2).
      simpl. f_equal.
      apply (IH (List.length a)); [simpl in Hn; lia | reflexivity].
Qed.

Lemma replace_nospace (old new s : pystr) :
  old <> [] -> no_space new = true -> no_space s = true ->
  no_space (replace old new s) = true.
Proof.
  intros Hne Hn. unfold replace.
  apply (re_sub_ind (match_literal old new)
    (fun s out => no_space s = true -> no_space out = true)).
  - now apply match_literal_consuming.
  - trivial.
  - intros c t _ IH H. apply no_space_cons in H as [Hc Ht].
    unfold no_space in *. simpl. now rewrite Hc, (IH Ht).
  - intros t repl mt rest E _ Hs IH H.
    destruct (match_literal_hit _ _ _ _ _ E) as [-> _].
    rewrite Hs, no_space_app in H. apply andb_true_iff in H as [_ H].
    now rewrite no_space_app, Hn, (IH H).
Qed.

Lemma replace_nonempty (old new s : pystr) :
  old <> [] -> new <> [] -> s <> [] -> replace old new s <> [].
Proof.
  intros Ho Hn Hs. destruct s as [|c s]; [contradiction|]. unfold replace.
  destruct (match_literal old new (c :: s)) as [[repl rest]|] eqn:E.
  - destruct (match_literal_hit _ _ _ _ _ E) as [-> Hr].
    rewrite (re_sub_hit _ _ _ old _ E Ho Hr).
    destruct new; [contradiction | discriminate].
  - rewrite (re_sub_miss _ _ _ E). discriminate.
Qed.

Lemma emit_replace (old new s : pystr) :
  old <> [] -> new <> [] ->
  emit (replace old new s) = List.map (replace old new) (emit s).
Proof.
  intros Ho Hn. destruct s as [|c s]; [reflexivity|].
  pose proof (replace_nonempty old new (c :: s) Ho Hn) as H.
  simpl. destruct (replace old new (c :: s)); [|reflexivity].
  exfalso. now apply H.
Qed.

(** One replacement changes each word by itself. *)
Lemma words_replace (old new s : pystr) :
  old <> [] -> no_space old = true -> new <> [] -> no_space new = true ->
  words (replace old new s) = List.map (replace old new) (words s).
Proof.
  intros Ho Hso Hn Hsn.
  remember (List.length s) as n eqn:Hlen. revert s Hlen.
  induction n as [n IH] using lt_wf_ind. intros s Hlen.
  destruct (first_space s) as [Hs|[a [c [b [-> [Ha Hc]]]]]].
  - rewrite (words_nospace _ Hs),
      (words_nospace _ (replace_nospace old new s Ho Hsn Hs)).
    now apply emit_replace.
  - rewrite (replace_split old new a b c Ho Hso Hc).
    rewrite (words_split _ _ _ (replace_nospace old new a Ho Hsn Ha) Hc).
    rewrite (words_split _ _ _ Ha Hc), map_app.
    rewrite (emit_replace old new a Ho Hn). f_equal.
    apply (IH (List.length b)); [|reflexivity].
    rewrite Hlen, length_app. simpl. lia.
Qed.

Lemma words_apply_replacements (rs : list (pystr * pystr)) (s : pystr) :
  plain_table rs = true ->
  words (apply_replacements rs s)
  = List.map (apply_replacements rs) (words s).
Proof.
  revert s. induction rs as [|r rs IH]; intros s H.
  - simpl. now rewrite map_id.
  - simpl in H. apply andb_true_iff in H as [Hr H].
    apply andb_true_iff in Hr as [Hr H4]. apply andb_true_iff in Hr as [Hr H3].
    apply andb_true_iff in Hr as [H1 H2].
    apply nonempty_iff in H1, H3.
    rewrite apply_replacements_cons, (IH _ H),
      (words_replace _ _ _ H1 H2 H3 H4), map_map.
    reflexivity.
Qed.

Lemma replacements_plain_table : plain_table replacements = true.
Proof. vm_compute. reflexivity. Qed.

Lemma words_normalize (isdecimal : N -> bool) (t : pystr) :
  words (normalize isdecimal t)
  = List.map (apply_replacements replacements) (words t).
Proof.
  rewrite normalize_unfold, strip_words. unfold words.
  rewrite (space_sub_words _ _ match_blank_lines_taking match_blank_lines_space).
  rewrite (space_sub_words _ _ match_blanks_taking match_blanks_space).
  apply words_apply_replacements. exact replacements_plain_table.
Qed.

(* ================================================================== *)
(** * More on the loop over the files *)
(* ================================================================== *)

Section MoreHandlerFacts.
Context {World image : Type}.
Variable convert_from_bytes : bytes -> World -> (pyerr + list image) * World.
Variable Image_open : bytes -> World -> (pyerr + image) * World.
Variable image_to_string : image -> pystr -> World -> (pyerr + pystr) * World.

Local Abbreviation St := (state World image).
Local Abbreviation run_pages := (ocr_pages image_to_string).
Local Abbreviation run_extract :=
  (extract convert_from_bytes Image_open image_to_string).
Local Abbreviation run_files :=
  (process_files convert_from_bytes Image_open image_to_string).

(** The pages of a PDF are read in their order, each once, under the
    default configuration. *)
Lemma ocr_pages_calls (images : list image) (all_text : pystr)
    (st st' : St) (r : pystr) :
  run_pages images all_text st = (inr r, st') ->
  exists texts,
    List.length texts = List.length images
    /\ log st' = log st ++ page_calls images texts
    /\ r = all_text ++ List.concat (List.map (fun t => t ++ nl) texts).
Proof.
  revert all_text st. induction images as [|img images IH];
    intros all_text st H.
  - injection H as <- <-. exists []. simpl. now rewrite !app_nil_r.
  - simpl in H. apply bind_inv in H as [text [st1 [H1 H]]].
    apply call_inv in H1 as [w [_ ->]].
    apply IH in H as [texts [Hlen [Hlog ->]]].
    exists (text :: texts). split; [simpl; now rewrite Hlen|]. split.
    + rewrite Hlog. unfold page_calls. simpl. now rewrite <- app_assoc.
    + simpl. now rewrite <- !app_assoc.
Qed.

Lemma extract_pdf (file : UploadFile) (all_text : pystr) (n : N)
    (st st' : St) (r : pystr * N) :
  opt_eqb (content_type file) (lit "application/pdf") = true ->
  run_extract file all_text n st = (inr r, st') ->
  exists images texts,
    List.length texts = List.length images
    /\ log st' = log st ++ Call_convert_from_bytes (contents file) (inr images)
                           :: page_calls images texts
    /\ r = (all_text ++ List.concat (List.map (fun t => t ++ nl) texts) ++ footer n,
            (n + 1)%N).
Proof.
  intros Hpdf H. unfold extract in H. rewrite Hpdf in H.
  apply bind_inv in H as [a [s1 [H1 H]]]. injection H as <- <-.
  apply bind_inv in H1 as [images [s2 [H2 H1]]].
  apply call_inv in H2 as [w [_ ->]].
  apply ocr_pages_calls in H1 as [texts [Hlen [Hlog ->]]].
  exists images, texts. split; [exact Hlen|]. split.
  - rewrite Hlog. simpl. now rewrite <- app_assoc.
  - now rewrite <- app_assoc.
Qed.

Lemma extract_calls (file : UploadFile) (all_text : pystr) (n : N)
    (st st' : St) (r : pystr * N) :
  run_extract file all_text n st = (inr r, st') ->
  exists evs, calls_of file evs /\ log st' = log st ++ evs.
Proof.
  intros H.
  destruct (opt_eqb (content_type file) (lit "application/pdf")) eqn:Hpdf.
  - destruct (extract_pdf _ _ _ _ _ _ Hpdf H) as [images [texts [Hlen [Hlog _]]]].
    eexists. split; [|exact Hlog]. unfold calls_of. rewrite Hpdf.
    now exists images, texts.
  - unfold extract in H. rewrite Hpdf in H.
    apply bind_inv in H as [a [s1 [H1 H]]]. injection H as _ <-.
    apply ocr_image_ok in H1 as [img [t1 [t2 [t3 [Hlog _]]]]].
    eexists. split; [|exact Hlog]. unfold calls_of. rewrite Hpdf.
    now exists img, t1, t2, t3.
Qed.

Lemma process_files_calls (files : list UploadFile) (all_text : pystr)
    (n : N) (st st' : St) (r : pystr * N) :
  run_files files all_text n st = (inr r, st') ->
  exists evss,
    Forall2 (@calls_of image) files evss /\ log st' = log st ++ List.concat evss.
Proof.
  revert all_text n st. induction files as [|f files IH];
    intros all_text n st H.
  - injection H as _ <-. exists []. split; [constructor|].
    simpl. now rewrite app_nil_r.
  - rewrite process_files_cons in H.
    destruct (negb (opt_in (content_type f) allowed_types)); [discriminate|].
    destruct (run_extract f (all_text ++ header n) n st) as [[e|r1] st1] eqn:E;
      [discriminate|].
    apply extract_calls in E as [evs [Hc Hlog1]].
    apply IH in H as [evss [Hall Hlog]].
    exists (evs :: evss). split; [now constructor|].
    rewrite Hlog, Hlog1. simpl. now rewrite <- app_assoc.
Qed.

(** An error of the loop comes from one of the files. *)
Lemma process_files_error_file (files : list UploadFile) (all_text : pystr)
    (n : N) (st st' : St) (e : exn) :
  run_files files all_text n st = (inl e, st') ->
  exists f, In f files
    /\ ((opt_in (content_type f) allowed_types = false
         /\ e = HTTPException 400
                  (lit "Unsupported file type: " ++ fmt (content_type f)))
        \/ (opt_in (content_type f) allowed_types = true
            /\ exists m, e = HTTPException 500
                               (lit "Error processing file "
                                ++ fmt (filename f) ++ lit ": " ++ m))).
Proof.
  revert all_text n st. induction files as [|f files IH];
    intros all_text n st H; [discriminate|].
  rewrite process_files_cons in H.
  destruct (opt_in (content_type f) allowed_types) eqn:Hct; cbn [negb] in H.
  - destruct (run_extract f (all_text ++ header n) n st) as [[e1|r1] st1].
    + exists f. split; [now left|]. right.
      split; [exact Hct|]. exists (str_e e1). congruence.
    + destruct (IH _ _ _ H) as [g [Hin Hg]]. exists g. split; [now right|].
      exact Hg.
  - exists f. split; [now left|]. left. split; [exact Hct | congruence].
Qed.
End MoreHandlerFacts.

(** Python's [max] with a key: the first of the longest. *)
Lemma max_len_first_aux (xs before after : list pystr) (best : pystr) :
  Forall (fun y => List.length y < List.length best) before ->
  Forall (fun y => List.length y <= List.length best) after ->
  exists before' after',
    before ++ best :: after ++ xs = before' ++ max_len best xs :: after'
    /\ Forall (fun y => List.length y < List.length (max_len best xs)) before'
    /\ Forall (fun y => List.length y <= List.length (max_len best xs)) after'.
Proof.
  revert before after best. induction xs as [|y xs IH];
    intros before after best Hb Ha.
  - exists before, after. rewrite app_nil_r. now split.
  - unfold max_len. simpl. fold (max_len (if List.length best <? List.length y
                                          then y else best) xs).
    destruct (Nat.ltb_spec (List.length best) (List.length y)) as [Hlt|Hge].
    + destruct (IH (before ++ best :: after) [] y) as [b' [a' [E [Hb' Ha']]]].
      * apply Forall_app. split.
        { eapply Forall_impl; [|exact Hb]. simpl. intros; lia. }
        constructor; [exact Hlt|].
        eapply Forall_impl; [|exact Ha]. simpl. intros; lia.
      * constructor.
      * exists b', a'. split; [|now split].
        rewrite <- E. simpl. now rewrite <- app_assoc.
    + destruct (IH before (after ++ [y]) best Hb) as [b' [a' [E [Hb' Ha']]]].
      * apply Forall_app. split; [exact Ha|]. now constructor.
      * exists b', a'. split; [|now split].
        rewrite <- E, <- app_assoc. reflexivity.
Qed.

(* ================================================================== *)
(** * Further properties of the code *)
(* ================================================================== *)

Lemma dropwhile_all (f : N -> bool) (s : pystr) :
  forallb f s = true -> dropwhile f s = [].
Proof.
  induction s as [|c s IH]; [reflexivity|]. simpl. intros H.
  apply andb_true_iff in H as [-> H]. now apply IH.
Qed.

Lemma strip_spaces_only (s : pystr) : forallb isspace s = true -> strip s = [].
Proof.
  intros H. unfold strip, lstrip. now rewrite (dropwhile_all _ _ H).
Qed.

Lemma settled_nil (rs : list (pystr * pystr)) :
  plain_keys rs = true -> settled rs [].
Proof.
  intros H. apply plain_keys_nonempty in H. unfold settled.
  eapply Forall_impl; [|exact H]. intros r Hr. right.
  rewrite contains_nil_r. apply nonempty_iff in Hr. now rewrite Hr.
Qed.

(** X1.  [clean_ocr_text] works word by word: the words of its result
    (the runs of characters between whitespace, as [str.split()] gives
    them) are the words of its argument, in their order and number, each
    with the replacements of the table applied to it.  No step joins two
    words, splits one, or drops one. *)
Theorem clean_ocr_text_words (isdecimal : N -> bool) (text : pystr) :
  exists out,
    clean_ocr_text isdecimal (Some text) = Some out
    /\ words out = List.map (apply_replacements replacements) (words text).
Proof.
  destruct text as [|c t].
  - exists []. now split.
  - exists (normalize isdecimal (c :: t)). split; [reflexivity|].
    apply words_normalize.
Qed.

(** X2.  The result of [clean_ocr_text] is the empty string exactly for a
    text of whitespace only (the empty text included). *)
Theorem clean_ocr_text_blank (isdecimal : N -> bool) (text : pystr) :
  clean_ocr_text isdecimal (Some text) = Some []
  <-> forallb isspace text = true.
Proof.
  destruct text as [|c t]; [now split|].
  rewrite clean_ocr_text_some by discriminate.
  rewrite <- words_nil_iff. split.
  - intros H. injection H as H.
    pose proof (words_normalize isdecimal (c :: t)) as W. rewrite H in W.
    symmetry in W. now apply map_eq_nil in W.
  - intros H. f_equal.
    pose proof (words_normalize isdecimal (c :: t)) as W. rewrite H in W.
    apply words_nil_iff, strip_spaces_only in W.
    now rewrite normalize_stripped in W.
Qed.

(** X3.  No misreading of the table is left in the result of
    [clean_ocr_text]: a key that is replaced by another string does not
    occur in it, also not one put together by a later replacement or by
    the cleaning of the whitespace. *)
Theorem clean_ocr_text_no_misread (isdecimal : N -> bool) (text old new : pystr) :
  In (old, new) replacements -> old <> new ->
  exists out,
    clean_ocr_text isdecimal (Some text) = Some out
    /\ contains old out = false.
Proof.
  intros Hin Hne.
  assert (forall s, settled replacements s -> contains old s = false) as Hs.
  { intros s H. unfold settled in H. rewrite Forall_forall in H.
    destruct (H _ Hin) as [E|E]; [contradiction | exact E]. }
  destruct text as [|c t].
  - exists []. split; [reflexivity|].
    apply Hs, settled_nil, replacements_plain.
  - exists (normalize isdecimal (c :: t)). split; [reflexivity|].
    apply Hs, normalize_settled.
Qed.

(** X4.  The texts [clean_ocr_text] returns as they are, are the texts in
    which no key of the table that is replaced by another string occurs,
    every blank is a single space between two characters that are not
    blanks, no run of whitespace holds more than two newlines, and
    nothing is left for [strip()] to cut. *)
Theorem clean_ocr_text_fixed_points (isdecimal : N -> bool) (s : pystr) :
  clean_ocr_text isdecimal (Some s) = Some s
  <-> (settled replacements s /\ single_spaced s = true
       /\ two_newlines s = true /\ strip s = s).
Proof.
  destruct s as [|c t].
  - split; [|reflexivity]. intros _.
    split; [apply settled_nil, replacements_plain | now repeat split].
  - rewrite clean_ocr_text_some by discriminate. split.
    + intros H. injection H as H. rewrite <- H.
      split; [apply normalize_settled|].
      split; [apply normalize_single_spaced|].
      split; [apply normalize_two_newlines | apply normalize_stripped].
    + intros [H1 [H2 [H3 H4]]]. f_equal. now apply normalize_fixed.
Qed.

(** X5.  The third substitution of [clean_ocr_text], of [\1.\2] for
    [(\d+)\.(\d+)], changes no text: what it writes is what it matched. *)
Theorem decimal_substitution_identity (isdecimal : N -> bool) (text : pystr) :
  re_sub (match_decimal isdecimal) text = text.
Proof. apply re_sub_same. apply match_decimal_hit. Qed.

(** X15.  [max_len], the [max(texts, key=len)] of the handler, gives the
    first of the longest texts: every text before it in the list is
    shorter, none after it is longer. *)
Theorem max_len_first_longest (x : pystr) (xs : list pystr) :
  exists before after,
    x :: xs = before ++ max_len x xs :: after
    /\ Forall (fun y => List.length y < List.length (max_len x xs)) before
    /\ Forall (fun y => List.length y <= List.length (max_len x xs)) after.
Proof.
  destruct (max_len_first_aux xs [] [] x) as [b [a [E H]]]; try constructor.
  exists b, a. split; [exact E | exact H].
Qed.

Lemma rstrip_nospace_prefix (a s : pystr) :
  no_space a = true -> rstrip (a ++ s) = a ++ rstrip s.
Proof.
  induction a as [|c a IH]; intros Ha; [reflexivity|].
  apply no_space_cons in Ha as [Hc Ha]. simpl.
  now rewrite (rstrip_cons _ _ Hc), (IH Ha).
Qed.

(** X13.  An answer wrapped in plain fences, without the [json] tag on the
    opening one, loses its closing fence only: what [json.loads] is given
    still starts with the opening fence. *)
Theorem plain_fence_kept (text body : pystr) :
  startswith fence_open (strip text) = false ->
  strip text = fence_close ++ body ++ fence_close ->
  unfence text = fence_close ++ rstrip body.
Proof.
  intros Ho Hs. unfold unfence. rewrite Ho, Hs.
  rewrite app_assoc, endswith_app, length_app.
  change (List.length fence_close) with 3.
  rewrite Nat.add_sub, firstn_app, firstn_all, Nat.sub_diag, app_nil_r.
  unfold strip. change (lstrip (fence_close ++ body)) with (fence_close ++ body).
  now apply rstrip_nospace_prefix.
Qed.

(** X14.  The two fences are looked for one after the other and each by
    itself: an answer that has neither is parsed as it is, stripped; an
    opening fence is taken off also when no closing fence ends the
    answer. *)
Theorem unfence_single_fence (text : pystr) :
  (startswith fence_open (strip text) = false ->
   endswith fence_close (strip text) = false ->
   unfence text = strip text)
  /\ (forall rest,
        strip text = fence_open ++ rest ->
        endswith fence_close rest = false ->
        unfence text = strip rest).
Proof.
  split.
  - intros Ho Hc. unfold unfence. rewrite Ho, Hc. apply strip_idem.
  - intros rest Hs Hc. unfold unfence. rewrite Hs, startswith_app.
    change (skipn 7 (fence_open ++ rest)) with rest. now rewrite Hc.
Qed.

Lemma first_existing_some (path_exists : pystr -> bool) (paths : list pystr)
    (path : pystr) :
  first_existing path_exists paths = Some path ->
  exists before after,
    paths = before ++ path :: after
    /\ path_exists path = true
    /\ Forall (fun p => path_exists p = false) before.
Proof.
  induction paths as [|p paths IH]; simpl; [discriminate|].
  destruct (path_exists p) eqn:E.
  - intros H. injection H as <-. exists [], paths. now split.
  - intros H. destruct (IH H) as [b [a [-> [Hp Hb]]]].
    exists (p :: b), a. split; [reflexivity|]. split; [exact Hp|].
    now constructor.
Qed.

Lemma first_existing_none (path_exists : pystr -> bool) (paths : list pystr) :
  first_existing path_exists paths = None ->
  Forall (fun p => path_exists p = false) paths.
Proof.
  induction paths as [|p paths IH]; simpl; [constructor|].
  destruct (path_exists p) eqn:E; [discriminate|].
  intros H. constructor; [exact E | now apply IH].
Qed.

(** X16.  The import of the module fails exactly when [GEMINI_API_KEY] is
    not set or is empty, whether Tesseract was found or not.  When it goes
    through, the command of Tesseract is the first of the four candidate
    paths that exists, in the order of the list, and no warning was
    printed; or none of them exists, the command is left as it was and the
    warning was printed. *)
Theorem startup_outcome (path_exists : pystr -> bool)
    (getenv : pystr -> option pystr) (tesseract_cmd0 : pystr) :
  match startup path_exists getenv tesseract_cmd0 with
  | inl e =>
      getenv (lit "GEMINI_API_KEY") = None
      \/ getenv (lit "GEMINI_API_KEY") = Some []
  | inr s =>
      getenv (lit "GEMINI_API_KEY") = Some (gemini_api_key s)
      /\ gemini_api_key s <> []
      /\ ((warning_printed s = false
           /\ exists before after,
                tesseract_paths = before ++ tesseract_cmd s :: after
                /\ path_exists (tesseract_cmd s) = true
                /\ Forall (fun p => path_exists p = false) before)
          \/ (warning_printed s = true
              /\ tesseract_cmd s = tesseract_cmd0
              /\ Forall (fun p => path_exists p = false) tesseract_paths))
  end.
Proof.
  unfold startup.
  destruct (getenv (lit "GEMINI_API_KEY")) as [[|c key]|] eqn:K;
    [now right | | now left].
  cbn [gemini_api_key warning_printed tesseract_cmd].
  split; [reflexivity|]. split; [discriminate|].
  destruct (first_existing path_exists tesseract_paths) as [path|] eqn:F.
  - left. split; [reflexivity|]. now apply first_existing_some.
  - right. split; [reflexivity|]. split; [reflexivity|].
    now apply first_existing_none.
Qed.

Section MoreHandlerProperties.
Context {World image : Type}.
Variable convert_from_bytes : bytes -> World -> (pyerr + list image) * World.
Variable Image_open : bytes -> World -> (pyerr + image) * World.
Variable image_to_string : image -> pystr -> World -> (pyerr + pystr) * World.
Variable generate_content : pystr -> World -> (pyerr + pystr) * World.
Variable json_loads : pystr -> pyerr + json.
Variable isdecimal : N -> bool.
Variable prompt_template : pystr.

Local Abbreviation St := (state World image).
Local Abbreviation run_extract :=
  (extract convert_from_bytes Image_open image_to_string).
Local Abbreviation run_files :=
  (process_files convert_from_bytes Image_open image_to_string).
Local Abbreviation run_model :=
  (ask_model (image:=image) generate_content json_loads).
Local Abbreviation handler :=
  (process_images convert_from_bytes Image_open image_to_string
     generate_content json_loads isdecimal prompt_template).
Local Abbreviation prompt_of := (prompt_of isdecimal prompt_template).

(** X6.  The extraction of a PDF that goes through converts the bytes of
    the file once, then runs OCR once on each page, in the order of the
    pages and under the default configuration, and calls nothing else;
    what it adds before the closing banner is the text of each page
    followed by a newline, in that order (nothing for a PDF without
    pages), and the counter moves on by one whatever the number of
    pages. *)
Theorem pdf_extraction (file : UploadFile) (all_text : pystr) (n : N)
    (st st' : St) (r : pystr * N) :
  content_type file = Some (lit "application/pdf") ->
  run_extract file all_text n st = (inr r, st') ->
  exists images texts,
    List.length texts = List.length images
    /\ log st' = log st ++ Call_convert_from_bytes (contents file) (inr images)
                           :: page_calls images texts
    /\ fst r = all_text ++ List.concat (List.map (fun t => t ++ nl) texts)
               ++ footer n
    /\ snd r = (n + 1)%N.
Proof.
  intros Hct H.
  assert (opt_eqb (content_type file) (lit "application/pdf") = true) as Hpdf
    by now rewrite Hct.
  destruct (extract_pdf _ _ _ _ _ _ _ _ _ Hpdf H)
    as [images [texts [Hlen [Hlog ->]]]].
  now exists images, texts.
Qed.

(** X7.  When the loop over the files goes through, the calls it made are
    the calls of the first file, then those of the second, and so on in
    the order of the upload: for a file of the type [application/pdf] the
    conversion of its own bytes followed by one run of OCR per page, for
    any other file the opening of its own bytes followed by the three runs
    of OCR on the image. *)
Theorem files_read_in_order (files : list UploadFile) (st st' : St)
    (r : pystr * N) :
  run_files files [] 1%N st = (inr r, st') ->
  exists evss,
    Forall2 (@calls_of image) files evss
    /\ log st' = log st ++ List.concat evss.
Proof. apply process_files_calls. Qed.

(** X8.  The model is called at most once in a request, as the last call
    of all, and only after the loop over all the files went through: a
    request that ends in the loop (or has no file) has made calls of OCR
    and of the conversion only. *)
Theorem model_called_last (files : list UploadFile) (st st' : St)
    (res : exn + response) :
  handler files st = (res, st') ->
  exists evs,
    forallb (@is_ocr_call image) evs = true
    /\ ((log st' = log st ++ evs
         /\ (files = [] \/ exists e, run_files files [] 1%N st = (inl e, st')))
        \/ (exists r st1 answer,
              run_files files [] 1%N st = (inr r, st1)
              /\ log st1 = log st ++ evs
              /\ log st' = log st1
                   ++ [Call_generate_content (prompt_of (fst r)) answer])).
Proof.
  intros H. destruct files as [|f files].
  - injection H as _ <-. exists []. split; [reflexivity|]. left.
    rewrite app_nil_r. split; [reflexivity | now left].
  - assert (f :: files <> []) as Hne by discriminate.
    destruct (run_files (f :: files) [] 1%N st) as [[e|r] st1] eqn:E.
    + rewrite (process_images_loop_error _ _ _ generate_content json_loads
                 isdecimal prompt_template _ _ _ _ Hne E) in H.
      injection H as _ <-.
      destruct (ocr_only_files _ _ _ _ _ _ _ _ _ E) as [evs [Hlog Hocr]].
      exists evs. split; [exact Hocr|]. left. split; [exact Hlog|].
      right. now exists e.
    + rewrite (process_images_asks _ _ _ generate_content json_loads isdecimal
                 prompt_template _ _ _ _ Hne E) in H.
      destruct (ocr_only_files _ _ _ _ _ _ _ _ _ E) as [evs [Hlog Hocr]].
      exists evs. split; [exact Hocr|]. right.
      unfold ask_model, do_generate, call in H.
      destruct (generate_content (prompt_of (fst r)) (world st1))
        as [answer w] eqn:G.
      exists r, st1, answer. split; [reflexivity|]. split; [exact Hlog|].
      destruct answer as [e|text].
      * destruct (is_JSONDecodeError e); injection H as _ <-; reflexivity.
      * destruct (json_loads (unfence text)) as [e|v];
          [destruct (is_JSONDecodeError e)|]; injection H as _ <-; reflexivity.
Qed.

(** X9.  The ways a request can fail: 400 for an empty list; 400 for a
    file of the list whose type is not allowed; 500 naming a file of the
    list whose extraction raised; 500 for an answer [json.loads] rejects,
    or for another failure of the model; or the [UnboundLocalError] of
    the first [except] clause.  Nothing else is raised: in particular a
    request with at least one file, all of allowed types, is never
    answered 400. *)
Theorem process_images_errors (files : list UploadFile) (st st' : St)
    (e : exn) :
  handler files st = (inl e, st') ->
  (files = [] /\ e = HTTPException 400 (lit "No files provided"))
  \/ (exists f, In f files
        /\ opt_in (content_type f) allowed_types = false
        /\ e = HTTPException 400
                 (lit "Unsupported file type: " ++ fmt (content_type f)))
  \/ (exists f m, In f files
        /\ opt_in (content_type f) allowed_types = true
        /\ e = HTTPException 500
                 (lit "Error processing file " ++ fmt (filename f)
                  ++ lit ": " ++ m))
  \/ (exists body m,
        e = HTTPException 500
              (lit "Invalid JSON from Gemini: " ++ firstn 200 body
               ++ lit "... Error: " ++ m))
  \/ (exists m, e = HTTPException 500 (lit "Error processing with Gemini: " ++ m))
  \/ e = UnboundLocalError (lit "raw_text").
Proof.
  intros H. destruct files as [|f files].
  - left. injection H as <- _. now split.
  - right. assert (f :: files <> []) as Hne by discriminate.
    destruct (run_files (f :: files) [] 1%N st) as [[e1|r] st1] eqn:E.
    + rewrite (process_images_loop_error _ _ _ generate_content json_loads
                 isdecimal prompt_template _ _ _ _ Hne E) in H.
      injection H as <- _.
      destruct (process_files_error_file _ _ _ _ _ _ _ _ _ E)
        as [g [Hin [[Hct ->]|[Hct [m ->]]]]].
      * left. now exists g.
      * right. left. now exists g, m.
    + right. right.
      rewrite (process_images_asks _ _ _ generate_content json_loads isdecimal
                 prompt_template _ _ _ _ Hne E) in H.
      unfold ask_model, do_generate, call in H.
      destruct (generate_content (prompt_of (fst r)) (world st1))
        as [[e1|text] w].
      * destruct (is_JSONDecodeError e1); injection H as <- _.
        -- now right; right.
        -- right. left. now eexists.
      * destruct (json_loads (unfence text)) as [e1|v]; [|discriminate].
        destruct (is_JSONDecodeError e1); injection H as <- _.
        -- left. now eexists; eexists.
        -- right. left. now eexists.
Qed.

(** X10.  Once the loop has failed on the files read so far, what follows
    in the list does not matter: with any files appended the request
    fails with the same error, in the same state. *)
Theorem failed_prefix_decides (pre post : list UploadFile) (st st' : St)
    (e : exn) :
  run_files pre [] 1%N st = (inl e, st') ->
  handler (pre ++ post) st = (inl e, st').
Proof.
  intros H. apply process_images_loop_error.
  - destruct pre; [discriminate H | discriminate].
  - now rewrite process_files_app, H.
Qed.

(** X11.  When the call of the model raises an exception that is not a
    [JSONDecodeError], or [json.loads] does, the request fails with the
    error 500 whose detail is "Error processing with Gemini: " and the
    text of the exception. *)
Theorem model_failure (files : list UploadFile) (st st1 : St)
    (r : pystr * N) (e : pyerr) :
  files <> [] ->
  run_files files [] 1%N st = (inr r, st1) ->
  is_JSONDecodeError e = false ->
  (forall w,
     generate_content (prompt_of (fst r)) (world st1) = (inl e, w) ->
     handler files st
     = (inl (HTTPException 500
               (lit "Error processing with Gemini: " ++ str_e e)),
        (w, log st1 ++ [Call_generate_content (prompt_of (fst r)) (inl e)])))
  /\ (forall text w,
        generate_content (prompt_of (fst r)) (world st1) = (inr text, w) ->
        json_loads (unfence text) = inl e ->
        handler files st
        = (inl (HTTPException 500
                  (lit "Error processing with Gemini: " ++ str_e e)),
           (w, log st1
               ++ [Call_generate_content (prompt_of (fst r)) (inr text)]))).
Proof.
  intros Hne Hfiles He. split.
  - intros w G.
    rewrite (process_images_asks _ _ _ generate_content json_loads isdecimal
               prompt_template _ _ _ _ Hne Hfiles).
    unfold ask_model, do_generate, call. now rewrite G, He.
  - intros text w G J.
    rewrite (process_images_asks _ _ _ generate_content json_loads isdecimal
               prompt_template _ _ _ _ Hne Hfiles).
    now rewrite (ask_model_answer _ _ _ _ _ _ G), J, He.
Qed.

(** X12.  When the call of the model itself raises a [JSONDecodeError],
    the first [except] clause takes it and reads [raw_text], which was
    never bound: the request ends in an [UnboundLocalError] and not in an
    [HTTPException]. *)
Theorem model_call_json_error (files : list UploadFile) (st st1 : St)
    (r : pystr * N) (e : pyerr) (w : World) :
  files <> [] ->
  run_files files [] 1%N st = (inr r, st1) ->
  generate_content (prompt_of (fst r)) (world st1) = (inl e, w) ->
  is_JSONDecodeError e = true ->
  handler files st
  = (inl (UnboundLocalError (lit "raw_text")),
     (w, log st1 ++ [Call_generate_content (prompt_of (fst r)) (inl e)])).
Proof.
  intros Hne Hfiles G He.
  rewrite (process_images_asks _ _ _ generate_content json_loads isdecimal
             prompt_template _ _ _ _ Hne Hfiles).
  unfold ask_model, do_generate, call. now rewrite G, He.
Qed.
End MoreHandlerProperties.

(* ================================================================== *)
(** * The further properties at work *)
(* ================================================================== *)

Example words_run :
  words (lit "  Qty: 3" ++ [chr_nl; chr_tab] ++ lit "Amt:1.50 ")
  = [lit "Qty:"; lit "3"; lit "Amt:1.50"].
Proof. reflexivity. Qed.

Lemma clean_ocr_text_no_misread_witness :
  In (lit "Qty:", lit "Quantity:") replacements
  /\ lit "Qty:" <> lit "Quantity:"
  /\ exists out,
       clean_ocr_text ascii_digit (Some Demo.smudged) = Some out
       /\ contains (lit "Qty:") out = false.
Proof.
  assert (In (lit "Qty:", lit "Quantity:") replacements) as Hin
    by (do 4 right; left; reflexivity).
  assert (lit "Qty:" <> lit "Quantity:") as Hne
    by (intros H; vm_compute in H; discriminate H).
  split; [exact Hin|]. split; [exact Hne|].
  exact (clean_ocr_text_no_misread ascii_digit Demo.smudged _ _ Hin Hne).
Defined.

Lemma pdf_extraction_witness :
  content_type (Demo.pdf "b.pdf" "Oil 150") = Some (lit "application/pdf")
  /\ exists r st',
       Demo.extract_one (Demo.pdf "b.pdf" "Oil 150") [] 1%N (tt, [])
       = (inr r, st')
       /\ exists images texts,
            List.length texts = List.length images
            /\ log st'
               = Call_convert_from_bytes (Demo.bytes_of "Oil 150") (inr images)
                 :: page_calls images texts
            /\ fst r = List.concat (List.map (fun t => t ++ nl) texts)
                       ++ footer 1
            /\ snd r = 2%N.
Proof.
  split; [reflexivity|].
  eexists. eexists. split; [vm_compute; reflexivity|].
  exact (pdf_extraction Demo.convert_from_bytes Demo.Image_open
           Demo.image_to_string (Demo.pdf "b.pdf" "Oil 150") [] 1%N
           (tt, []) _ _ eq_refl eq_refl).
Defined.

Lemma files_read_in_order_witness :
  exists r st',
    Demo.files_loop Demo.two_bills [] 1%N (tt, []) = (inr r, st')
    /\ exists evss,
         Forall2 (@calls_of bytes) Demo.two_bills evss
         /\ log st' = List.concat evss.
Proof.
  eexists. eexists. split; [vm_compute; reflexivity|].
  exact (files_read_in_order Demo.convert_from_bytes Demo.Image_open
           Demo.image_to_string Demo.two_bills (tt, []) _ _ eq_refl).
Defined.

Lemma model_called_last_witness :
  exists res st',
    Demo.run Demo.fenced_answer Demo.two_bills = (res, st')
    /\ exists evs r st1 answer,
         forallb (@is_ocr_call bytes) evs = true
         /\ Demo.files_loop Demo.two_bills [] 1%N (tt, []) = (inr r, st1)
         /\ log st1 = [] ++ evs
         /\ log st'
            = log st1 ++ [Call_generate_content
                            (prompt_of ascii_digit Demo.template (fst r))
                            answer].
Proof.
  eexists. eexists. split; [vm_compute; reflexivity|].
  destruct (model_called_last Demo.convert_from_bytes Demo.Image_open
              Demo.image_to_string (Demo.generate_content Demo.fenced_answer)
              Demo.json_loads ascii_digit Demo.template
              Demo.two_bills (tt, []) _ _ eq_refl)
    as [evs [Hocr [[_ [H|[e H]]]|[r [st1 [answer [H1 [H2 H3]]]]]]]].
  - discriminate H.
  - vm_compute in H. discriminate H.
  - exists evs, r, st1, answer. split; [exact Hocr|]. split; [exact H1|].
    split; [exact H2 | exact H3].
Defined.

Lemma process_images_errors_witness :
  exists e st',
    Demo.run Demo.fenced_answer Demo.mixed = (inl e, st')
    /\ exists f,
         In f Demo.mixed
         /\ opt_in (content_type f) allowed_types = false
         /\ e = HTTPException 400
                  (lit "Unsupported file type: " ++ fmt (content_type f)).
Proof.
  eexists. eexists. split; [vm_compute; reflexivity|].
  destruct (process_images_errors Demo.convert_from_bytes Demo.Image_open
              Demo.image_to_string (Demo.generate_content Demo.fenced_answer)
              Demo.json_loads ascii_digit Demo.template
              Demo.mixed (tt, []) _ _ eq_refl)
    as [[H _]|[H|[[f [m [_ [_ H]]]]|[[b [m H]]|[[m H]|H]]]]].
  - discriminate H.
  - exact H.
  - discriminate H.
  - discriminate H.
  - discriminate H.
  - discriminate H.
Defined.

Lemma failed_prefix_decides_witness :
  exists e st',
    Demo.files_loop [Demo.png "a.png" "Rice 50"; Demo.txt "notes.txt" "hello"]
      [] 1%N (tt, []) = (inl e, st')
    /\ Demo.run Demo.fenced_answer Demo.mixed = (inl e, st').
Proof.
  eexists. eexists. split; [vm_compute; reflexivity|].
  exact (failed_prefix_decides Demo.convert_from_bytes Demo.Image_open
           Demo.image_to_string (Demo.generate_content Demo.fenced_answer)
           Demo.json_loads ascii_digit Demo.template
           [Demo.png "a.png" "Rice 50"; Demo.txt "notes.txt" "hello"]
           [Demo.pdf "b.pdf" "Oil 150"] (tt, []) _ _ eq_refl).
Defined.

Lemma model_failure_witness :
  Demo.two_bills <> []
  /\ is_JSONDecodeError Demo.quota_error = false
  /\ exists r st1,
       Demo.files_loop Demo.two_bills [] 1%N (tt, []) = (inr r, st1)
       /\ fst (Demo.run_failing Demo.quota_error Demo.two_bills)
          = inl (HTTPException 500
                   (lit "Error processing with Gemini: 429 quota exceeded")).
Proof.
  assert (Demo.two_bills <> []) as Hne by discriminate.
  split; [exact Hne|]. split; [reflexivity|].
  eexists. eexists. split; [vm_compute; reflexivity|].
  unfold Demo.run_failing.
  now rewrite (proj1 (model_failure Demo.convert_from_bytes Demo.Image_open
                 Demo.image_to_string (Demo.generate_failing Demo.quota_error)
                 Demo.json_loads ascii_digit Demo.template
                 Demo.two_bills (tt, []) _ _ Demo.quota_error
                 Hne eq_refl eq_refl) tt eq_refl).
Defined.

Lemma model_call_json_error_witness :
  Demo.two_bills <> []
  /\ is_JSONDecodeError Demo.decode_error = true
  /\ exists r st1,
       Demo.files_loop Demo.two_bills [] 1%N (tt, []) = (inr r, st1)
       /\ fst (Demo.run_failing Demo.decode_error Demo.two_bills)
          = inl (UnboundLocalError (lit "raw_text")).
Proof.
  assert (Demo.two_bills <> []) as Hne by discriminate.
  split; [exact Hne|]. split; [reflexivity|].
  eexists. eexists. split; [vm_compute; reflexivity|].
  unfold Demo.run_failing.
  now rewrite (model_call_json_error Demo.convert_from_bytes Demo.Image_open
                 Demo.image_to_string (Demo.generate_failing Demo.decode_error)
                 Demo.json_loads ascii_digit Demo.template
                 Demo.two_bills (tt, []) _ _ Demo.decode_error tt
                 Hne eq_refl eq_refl eq_refl).
Defined.

Lemma plain_fence_kept_witness :
  startswith fence_open (strip Demo.plain_fenced_answer) = false
  /\ strip Demo.plain_fenced_answer
     = fence_close ++ (nl ++ lit "[]" ++ nl) ++ fence_close
  /\ unfence Demo.plain_fenced_answer = fence_close ++ nl ++ lit "[]".
Proof.
  split; [reflexivity|]. split; [reflexivity|].
  exact (plain_fence_kept Demo.plain_fenced_answer (nl ++ lit "[]" ++ nl)
           eq_refl eq_refl).
Defined.

Lemma unfence_single_fence_witness :
  unfence (lit " [] ") = lit "[]"
  /\ unfence (lit "```json [] ") = lit "[]".
Proof.
  split.
  - exact (proj1 (unfence_single_fence (lit " [] ")) eq_refl eq_refl).
  - exact (proj2 (unfence_single_fence (lit "```json [] ")) (lit " []")
             eq_refl eq_refl).
Defined.

(* ================================================================== *)
(** * The banners in the cleaned text *)
(* ================================================================== *)

Lemma digits_of_uint (d : Decimal.uint) :
  forallb ascii_digit (lit (DecimalString.NilEmpty.string_of_uint d)) = true.
Proof. induction d; simpl; try reflexivity; exact IHd. Qed.

Lemma str_of_int_digits (n : N) :
  forallb ascii_digit (str_of_int n) = true /\ str_of_int n <> [].
Proof.
  unfold str_of_int, DecimalString.NilZero.string_of_uint.
  destruct (N.to_uint n) eqn:E; try (split; [|discriminate]);
    try (apply (digits_of_uint (Decimal.D0 _)) || apply (digits_of_uint (Decimal.D1 _))
         || apply (digits_of_uint (Decimal.D2 _)) || apply (digits_of_uint (Decimal.D3 _))
         || apply (digits_of_uint (Decimal.D4 _)) || apply (digits_of_uint (Decimal.D5 _))
         || apply (digits_of_uint (Decimal.D6 _)) || apply (digits_of_uint (Decimal.D7 _))
         || apply (digits_of_uint (Decimal.D8 _)) || apply (digits_of_uint (Decimal.D9 _))).
  reflexivity.
Qed.

Lemma digit_not_space (c : N) : ascii_digit c = true -> isspace c = false.
Proof.
  unfold ascii_digit, isspace. intros H. apply andb_true_iff in H as [H1 H2].
  apply N.leb_le in H1, H2.
  repeat match goal with
         | |- context [(?a <=? ?b)%N] => destruct (N.leb_spec a b)
         | |- context [(?a =? ?b)%N] => destruct (N.eqb_spec a b)
         end; simpl; try reflexivity; lia.
Qed.

Lemma digits_no_space (s : pystr) :
  forallb ascii_digit s = true -> no_space s = true.
Proof.
  unfold no_space. rewrite !forallb_forall. intros H c Hc.
  now rewrite (digit_not_space _ (H c Hc)).
Qed.

Lemma words_app_space (t x cur : pystr) (c : N) :
  isspace c = true ->
  words_from cur (t ++ c :: x) = words_from cur t ++ words x.
Proof.
  intros Hc. revert cur. induction t as [|y t IH]; intros cur; simpl.
  - now rewrite Hc.
  - destruct (isspace y); [rewrite <- app_assoc; f_equal|]; apply IH.
Qed.

Lemma words_word (a b : pystr) (c : N) :
  a <> [] -> no_space a = true -> isspace c = true ->
  words (a ++ c :: b) = a :: words b.
Proof.
  intros Hne Ha Hc. rewrite (words_split _ _ _ Ha Hc).
  destruct a; [contradiction | reflexivity].
Qed.

(** The words of a banner, whatever whitespace precedes it. *)
Lemma words_banner (pre kind x : pystr) (n : N) :
  forallb isspace pre = true -> kind <> [] -> no_space kind = true ->
  words (pre ++ rule ++ chr_nl :: lit "BILL" ++ chr_space :: lit "NUMBER"
         ++ chr_space :: str_of_int n ++ chr_space :: lit "-"
         ++ chr_space :: kind ++ chr_nl :: rule ++ chr_nl :: chr_nl :: x)
  = banner_words kind n ++ words x.
Proof.
  intros Hpre Hk Hsk. destruct (str_of_int_digits n) as [Hd Hn].
  rewrite (words_app_spaces_l _ _ Hpre).
  rewrite (words_word rule) by (discriminate || reflexivity).
  rewrite (words_word (lit "BILL")) by (discriminate || reflexivity).
  rewrite (words_word (lit "NUMBER")) by (discriminate || reflexivity).
  rewrite (words_word (str_of_int n) _ chr_space Hn (digits_no_space _ Hd) eq_refl).
  rewrite (words_word (lit "-")) by (discriminate || reflexivity).
  rewrite (words_word kind _ chr_nl Hk Hsk eq_refl).
  rewrite (words_word rule) by (discriminate || reflexivity).
  change (chr_nl :: x) with ([chr_nl] ++ x).
  rewrite (words_app_spaces_l [chr_nl] x eq_refl). reflexivity.
Qed.

Lemma words_header (n : N) (x : pystr) :
  words (header n ++ x) = banner_words (lit "START") n ++ words x.
Proof.
  rewrite <- (words_banner [chr_nl; chr_nl] (lit "START") x n eq_refl)
    by (discriminate || reflexivity).
  f_equal. unfold header, nl. rewrite <- !app_assoc. reflexivity.
Qed.

Lemma words_footer (n : N) (x : pystr) :
  words (footer n ++ x) = banner_words (lit "END") n ++ words x.
Proof.
  rewrite <- (words_banner [chr_nl] (lit "END") x n eq_refl)
    by (discriminate || reflexivity).
  f_equal. unfold footer, nl. rewrite <- !app_assoc. reflexivity.
Qed.

Lemma words_before_footer (t x : pystr) (n : N) :
  words (t ++ footer n ++ x) = words t ++ words (footer n ++ x).
Proof.
  assert (exists tl, footer n = chr_nl :: tl) as [tl E]
    by (unfold footer, nl; eexists; reflexivity).
  rewrite E. change ((chr_nl :: tl) ++ x) with (chr_nl :: (tl ++ x)).
  unfold words at 1. rewrite (words_app_space t _ [] chr_nl eq_refl).
  reflexivity.
Qed.

Lemma digits_free (key s : pystr) (c : N) :
  ascii_digit c = false -> forallb ascii_digit s = true ->
  contains (c :: key) s = false.
Proof.
  intros Hc. induction s as [|d s IH]; intros Hs; [reflexivity|].
  simpl in Hs. apply andb_true_iff in Hs as [Hd Hs].
  rewrite contains_cons, (IH Hs), orb_false_r. simpl.
  destruct (N.eqb_spec c d) as [->|_]; [congruence | reflexivity].
Qed.

Lemma digits_settled (rs : list (pystr * pystr)) (s : pystr) :
  keys_start_without_digit rs = true -> forallb ascii_digit s = true ->
  settled rs s.
Proof.
  unfold keys_start_without_digit, settled.
  rewrite forallb_forall, Forall_forall. intros H Hs r Hr. right.
  specialize (H r Hr). destruct (fst r) as [|c key]; [discriminate|].
  apply negb_true_iff in H. now apply digits_free.
Qed.

(** The replacements leave the words of a banner as they are. *)
Lemma banner_words_fixed (kind : pystr) (n : N) :
  kind = lit "START" \/ kind = lit "END" ->
  List.map (apply_replacements replacements) (banner_words kind n)
  = banner_words kind n.
Proof.
  intros Hk. destruct (str_of_int_digits n) as [Hd _].
  assert (apply_replacements replacements (str_of_int n) = str_of_int n) as E.
  { apply apply_replacements_fixed.
    - exact (plain_keys_nonempty _ replacements_plain).
    - apply digits_settled; [vm_compute; reflexivity | exact Hd]. }
  unfold banner_words. cbn [List.map]. rewrite E.
  assert (apply_replacements replacements rule = rule) as ->
    by (vm_compute; reflexivity).
  destruct Hk as [-> | ->]; reflexivity.
Qed.

Lemma framed_words_cleaned (n : N) (texts : list pystr) :
  List.map (apply_replacements replacements) (words (framed n texts))
  = framed_words n texts.
Proof.
  revert n. induction texts as [|t texts IH]; intros n; [reflexivity|].
  rewrite framed_cons, words_header, words_before_footer, words_footer.
  rewrite !map_app, IH.
  rewrite (banner_words_fixed (lit "START") n (or_introl eq_refl)).
  rewrite (banner_words_fixed (lit "END") n (or_intror eq_refl)).
  reflexivity.
Qed.

Lemma clean_words (isdecimal : N -> bool) (text : pystr) :
  exists out,
    clean_ocr_text isdecimal (Some text) = Some out
    /\ words out = List.map (apply_replacements replacements) (words text).
Proof.
  destruct text as [|c t].
  - exists []. now split.
  - exists (normalize isdecimal (c :: t)). split; [reflexivity|].
    apply words_normalize.
Qed.

Lemma lit_inj (s1 s2 : string) : lit s1 = lit s2 -> s1 = s2.
Proof.
  unfold lit. intros H.
  rewrite <- (string_of_list_ascii_of_string s1),
    <- (string_of_list_ascii_of_string s2).
  f_equal. revert H.
  generalize (list_ascii_of_string s1) (list_ascii_of_string s2).
  induction l as [|a l IH]; intros [|b l'] H; try discriminate; [reflexivity|].
  simpl in H. injection H as Hab H. f_equal; [|now apply IH].
  now rewrite <- (ascii_N_embedding a), <- (ascii_N_embedding b), Hab.
Qed.

Lemma to_uint_nonnil (n : N) : N.to_uint n <> Decimal.Nil.
Proof.
  destruct n as [|p]; [discriminate|]. apply DecimalPos.Unsigned.to_uint_nonnil.
Qed.

(** [str] of a natural number tells the number. *)
Lemma str_of_int_inj (n m : N) : str_of_int n = str_of_int m -> n = m.
Proof.
  unfold str_of_int. intros H. apply lit_inj in H.
  apply (f_equal DecimalString.NilZero.uint_of_string) in H.
  rewrite !DecimalString.NilZero.usu in H by apply to_uint_nonnil.
  injection H as H. now apply DecimalN.Unsigned.to_uint_inj.
Qed.

(** X18.  The banners tell the bill number: two opening banners, or two
    closing banners, are the same text only for the same number. *)
Theorem banners_tell_number (n m : N) :
  (header n = header m <-> n = m) /\ (footer n = footer m <-> n = m).
Proof.
  split; (split; [|now intros ->]); intros H.
  - unfold header in H.
    apply app_inv_head, app_inv_tail, app_inv_head, app_inv_tail in H.
    now apply str_of_int_inj.
  - unfold footer in H.
    apply app_inv_head, app_inv_tail, app_inv_head, app_inv_tail in H.
    now apply str_of_int_inj.
Qed.

Section CleanedBanners.
Context {World image : Type}.
Variable convert_from_bytes : bytes -> World -> (pyerr + list image) * World.
Variable Image_open : bytes -> World -> (pyerr + image) * World.
Variable image_to_string : image -> pystr -> World -> (pyerr + pystr) * World.
Variable isdecimal : N -> bool.

(** X17.  The cleaning keeps the dividers: when the loop over the files
    goes through, the words of the cleaned text are, block after block in
    the order of the upload, the seven words of the START banner of the
    bill number, the words of the text extracted from the file with the
    replacements applied, and the seven words of the END banner.  No
    banner is changed, merged with the text next to it, or lost. *)
Theorem dividers_survive_cleaning (files : list UploadFile)
    (st st' : state World image) (r : pystr * N) :
  process_files convert_from_bytes Image_open image_to_string
    files [] 1%N st = (inr r, st') ->
  exists texts out,
    Forall2 (extracted_as convert_from_bytes Image_open image_to_string)
      files texts
    /\ clean_ocr_text isdecimal (Some (fst r)) = Some out
    /\ words out = framed_words 1 texts.
Proof.
  intros H. destruct (process_files_ok _ _ _ _ _ _ _ _ _ H)
    as [texts [Hall [Hfst _]]].
  destruct (clean_words isdecimal (fst r)) as [out [Hc Hw]].
  exists texts, out. split; [exact Hall|]. split; [exact Hc|].
  rewrite Hw, Hfst. apply framed_words_cleaned.
Qed.
End CleanedBanners.

Lemma dividers_survive_cleaning_witness :
  exists r st',
    Demo.files_loop Demo.two_bills [] 1%N (tt, []) = (inr r, st')
    /\ exists texts out,
         clean_ocr_text ascii_digit (Some (fst r)) = Some out
         /\ words out = framed_words 1 texts.
Proof.
  eexists. eexists. split; [vm_compute; reflexivity|].
  destruct (dividers_survive_cleaning Demo.convert_from_bytes Demo.Image_open
              Demo.image_to_string ascii_digit Demo.two_bills (tt, []) _ _
              eq_refl) as [texts [out [_ [H1 H2]]]].
  now exists texts, out.
Defined.

(* ================================================================== *)
(** * The prompt *)
(* ================================================================== *)

Lemma startswith_short (p x y : pystr) :
  List.length p <= List.length x -> startswith p (x ++ y) = startswith p x.
Proof.
  revert x. induction p as [|a p IH]; intros x H; [reflexivity|].
  destruct x as [|b x]; simpl in H; [lia|]. simpl.
  rewrite IH by lia. reflexivity.
Qed.

Lemma startswith_contains (p s : pystr) :
  startswith p s = true -> contains p s = true.
Proof. intros H. destruct s; simpl; now rewrite H. Qed.

(** Up to its first occurrence a text is copied, and the occurrence is
    replaced. *)
Lemma replace_first (old new pre post : pystr) :
  old <> [] -> contains old (pre ++ removelast old) = false ->
  replace old new (pre ++ old ++ post)
  = pre ++ new ++ replace old new post.
Proof.
  intros Ho. unfold replace. induction pre as [|c pre IH]; intros H.
  - simpl app. apply (re_sub_hit _ _ _ old); [|exact Ho | reflexivity].
    unfold match_literal. rewrite startswith_app. f_equal. f_equal.
    now rewrite skipn_app, skipn_all, Nat.sub_diag.
  - change ((c :: pre) ++ removelast old) with (c :: (pre ++ removelast old)) in H.
    rewrite contains_cons in H. apply orb_false_iff in H as [H1 H2].
    change ((c :: pre) ++ old ++ post) with (c :: (pre ++ old ++ post)).
    rewrite re_sub_miss; [simpl; f_equal; now apply IH|].
    apply match_literal_miss. rewrite <- H1.
    rewrite (app_removelast_last 0%N Ho) at 2.
    rewrite <- app_assoc.
    change (c :: pre ++ removelast old ++ [last old 0%N] ++ post)
      with ((c :: pre) ++ removelast old ++ [last old 0%N] ++ post).
    rewrite app_assoc. change (c :: pre ++ removelast old)
      with ((c :: pre) ++ removelast old).
    apply startswith_short. rewrite length_app. simpl.
    rewrite (app_removelast_last 0%N Ho) at 1.
    rewrite length_app. simpl. lia.
Qed.

Section Prompt.
Variable isdecimal : N -> bool.

(** X19.  For a template in which the placeholder stands once, the prompt
    is the template with the cleaned text in the place of the placeholder.
    The text is put in as it is: a placeholder that the text itself holds
    is not filled in again. *)
Theorem prompt_holds_cleaned_text (pre post all_text : pystr) :
  contains placeholder (pre ++ removelast placeholder) = false ->
  contains placeholder post = false ->
  all_text <> [] ->
  build_prompt isdecimal (pre ++ placeholder ++ post) all_text
  = Some (pre ++ normalize isdecimal all_text ++ post).
Proof.
  intros Hpre Hpost Hne. unfold build_prompt.
  rewrite (clean_ocr_text_some _ _ Hne). f_equal.
  rewrite replace_first by (discriminate || exact Hpre).
  now rewrite (replace_absent _ _ _ Hpost).
Qed.
End Prompt.

Lemma prompt_holds_cleaned_text_witness :
  contains placeholder (lit "Text to process: " ++ removelast placeholder) = false
  /\ contains placeholder [] = false
  /\ placeholder <> []
  /\ build_prompt ascii_digit Demo.template placeholder
     = Some (lit "Text to process: __ALL_TEXT_PLACEHOLDER__").
Proof.
  assert (placeholder <> []) as Hne by discriminate.
  split; [reflexivity|]. split; [reflexivity|]. split; [exact Hne|].
  exact (prompt_holds_cleaned_text ascii_digit (lit "Text to process: ") []
           placeholder eq_refl eq_refl Hne).
Defined.

(* ================================================================== *)
(** * The banner lines of the text of a request *)
(* ================================================================== *)

Lemma lines_from_app_nl (t y cur : pystr) :
  lines_from cur (t ++ chr_nl :: y) = lines_from cur t ++ lines y.
Proof.
  revert cur. induction t as [|c t IH]; intros cur; [reflexivity|].
  simpl. destruct (is_nl c); [simpl; f_equal|]; apply IH.
Qed.

Lemma lines_from_one_line (x cur : pystr) :
  one_line x -> lines_from cur x = [cur ++ x].
Proof.
  unfold one_line. revert cur. induction x as [|c x IH]; intros cur H; simpl.
  - now rewrite app_nil_r.
  - simpl in H. apply andb_true_iff in H as [Hc Hx].
    apply negb_true_iff in Hc. rewrite Hc, (IH _ Hx), <- app_assoc.
    reflexivity.
Qed.

Lemma lines_app_nl (t y : pystr) :
  lines (t ++ chr_nl :: y) = lines t ++ lines y.
Proof. apply lines_from_app_nl. Qed.

Lemma lines_line (x y : pystr) :
  one_line x -> lines (x ++ chr_nl :: y) = x :: lines y.
Proof.
  intros H. rewrite lines_app_nl. unfold lines at 1.
  now rewrite (lines_from_one_line _ _ H).
Qed.

Lemma banner_lines_app_nl (t y : pystr) :
  banner_lines (t ++ chr_nl :: y) = banner_lines t ++ banner_lines y.
Proof. unfold banner_lines. now rewrite lines_app_nl, filter_app. Qed.

Lemma banner_lines_line (x y : pystr) :
  one_line x ->
  banner_lines (x ++ chr_nl :: y)
  = (if is_banner x then [x] else []) ++ banner_lines y.
Proof.
  intros H. unfold banner_lines. rewrite (lines_line _ _ H). simpl.
  now destruct (is_banner x).
Qed.

Lemma digit_not_nl (c : N) : ascii_digit c = true -> negb (is_nl c) = true.
Proof.
  unfold ascii_digit, is_nl, chr_nl. intros H.
  apply andb_true_iff in H as [H1 _]. apply N.leb_le in H1.
  apply negb_true_iff, N.eqb_neq. lia.
Qed.

Lemma str_of_int_one_line (n : N) : one_line (str_of_int n).
Proof.
  destruct (str_of_int_digits n) as [H _]. unfold one_line.
  rewrite forallb_forall in *.
  intros c Hc. apply digit_not_nl, H, Hc.
Qed.

Lemma banner_one_line (kind : pystr) (n : N) :
  one_line kind -> one_line (bill_marker ++ str_of_int n ++ kind).
Proof.
  intros H. unfold one_line in *.
  rewrite !forallb_app, (str_of_int_one_line n), H. reflexivity.
Qed.

Lemma banner_is_banner (kind : pystr) (n : N) :
  is_banner (bill_marker ++ str_of_int n ++ kind) = true.
Proof. apply startswith_contains, startswith_app. Qed.

Lemma start_banner_line (n : N) :
  one_line (start_banner n) /\ is_banner (start_banner n) = true.
Proof.
  split; [exact (banner_one_line (lit " - START") n eq_refl)|].
  exact (banner_is_banner (lit " - START") n).
Qed.

Lemma end_banner_line (n : N) :
  one_line (end_banner n) /\ is_banner (end_banner n) = true.
Proof.
  split; [exact (banner_one_line (lit " - END") n eq_refl)|].
  exact (banner_is_banner (lit " - END") n).
Qed.

Lemma header_lines (n : N) (y : pystr) :
  header n ++ y
  = [] ++ chr_nl :: [] ++ chr_nl :: rule ++ chr_nl :: start_banner n
    ++ chr_nl :: rule ++ chr_nl :: [] ++ chr_nl :: y.
Proof.
  unfold header, start_banner, nl. rewrite <- !app_assoc. reflexivity.
Qed.

Lemma footer_lines (n : N) (y : pystr) :
  footer n ++ y
  = chr_nl :: rule ++ chr_nl :: end_banner n
    ++ chr_nl :: rule ++ chr_nl :: [] ++ chr_nl :: y.
Proof.
  unfold footer, end_banner, nl. rewrite <- !app_assoc. reflexivity.
Qed.

(** The opening banner of a block is one banner line. *)
Lemma banner_lines_header (n : N) (y : pystr) :
  banner_lines (header n ++ y) = start_banner n :: banner_lines y.
Proof.
  rewrite header_lines.
  rewrite (banner_lines_line [] _ eq_refl).
  rewrite (banner_lines_line [] _ eq_refl).
  rewrite (banner_lines_line rule _ eq_refl).
  rewrite (banner_lines_line (start_banner n) _
             (proj1 (start_banner_line n))).
  rewrite (banner_lines_line rule _ eq_refl).
  rewrite (banner_lines_line [] _ eq_refl).
  rewrite (proj2 (start_banner_line n)).
  reflexivity.
Qed.

(** The closing banner ends the last line of the text and is one banner
    line. *)
Lemma banner_lines_footer (t : pystr) (n : N) (y : pystr) :
  banner_lines (t ++ footer n ++ y)
  = banner_lines t ++ end_banner n :: banner_lines y.
Proof.
  rewrite footer_lines, banner_lines_app_nl. f_equal.
  rewrite (banner_lines_line rule _ eq_refl).
  rewrite (banner_lines_line (end_banner n) _
             (proj1 (end_banner_line n))).
  rewrite (banner_lines_line rule _ eq_refl).
  rewrite (banner_lines_line [] _ eq_refl).
  rewrite (proj2 (end_banner_line n)).
  reflexivity.
Qed.

Lemma banner_lines_framed (n : N) (texts : list pystr) :
  banner_lines (framed n texts) = framed_banners n texts.
Proof.
  revert n. induction texts as [|t texts IH]; intros n; [reflexivity|].
  rewrite framed_cons, banner_lines_header, banner_lines_footer, IH.
  reflexivity.
Qed.

Lemma framed_banners_plain (n : N) (texts : list pystr) :
  Forall (fun t => banner_lines t = []) texts ->
  framed_banners n texts = bill_banners n (List.length texts).
Proof.
  intros H. revert n. induction H as [|t texts Ht _ IH]; intros n;
    [reflexivity|].
  simpl. now rewrite Ht, IH.
Qed.

(** The banners are told apart by their kind and by their number. *)
Lemma start_banner_inj (n m : N) : start_banner n = start_banner m -> n = m.
Proof.
  unfold start_banner. intros H.
  apply app_inv_head, app_inv_tail in H. now apply str_of_int_inj.
Qed.

Lemma end_banner_inj (n m : N) : end_banner n = end_banner m -> n = m.
Proof.
  unfold end_banner. intros H.
  apply app_inv_head, app_inv_tail in H. now apply str_of_int_inj.
Qed.

Lemma start_not_end (n m : N) : start_banner n <> end_banner m.
Proof.
  unfold start_banner, end_banner. intros H. apply app_inv_head in H.
  apply (f_equal (@rev N)) in H. rewrite !rev_app_distr in H.
  discriminate H.
Qed.

Lemma bill_banners_in (x : pystr) (n : N) (k : nat) :
  In x (bill_banners n k) ->
  exists i, (n <= i)%N /\ (x = start_banner i \/ x = end_banner i).
Proof.
  revert n. induction k as [|k IH]; intros n H; [contradiction|].
  destruct H as [<-|[<-|H]].
  - exists n. split; [lia | now left].
  - exists n. split; [lia | now right].
  - destruct (IH _ H) as [i [Hi Hx]]. exists i. split; [lia | exact Hx].
Qed.

Lemma bill_banners_NoDup (n : N) (k : nat) : NoDup (bill_banners n k).
Proof.
  revert n. induction k as [|k IH]; intros n; [constructor|].
  simpl. constructor; [|constructor; [|apply IH]].
  - intros [H|H].
    + symmetry in H. now apply start_not_end in H.
    + apply bill_banners_in in H as [i [Hi [H|H]]].
      * apply start_banner_inj in H. lia.
      * now apply start_not_end in H.
  - intros H. apply bill_banners_in in H as [i [Hi [H|H]]].
    + symmetry in H. now apply start_not_end in H.
    + apply end_banner_inj in H. lia.
Qed.

Lemma ocr_texts_app (image : Type) (evs evs' : list (event image)) :
  ocr_texts (evs ++ evs') = ocr_texts evs ++ ocr_texts evs'.
Proof. apply flat_map_app. Qed.

Lemma ocr_texts_page_calls (image : Type) (images : list image)
    (texts : list pystr) :
  List.length texts = List.length images ->
  ocr_texts (page_calls images texts) = texts.
Proof.
  revert texts. induction images as [|img images IH]; intros [|t texts] H;
    try discriminate H; [reflexivity|].
  injection H as H. unfold page_calls. simpl. f_equal. now apply IH.
Qed.

Lemma banner_lines_pages (texts : list pystr) :
  Forall (fun t => banner_lines t = []) texts ->
  banner_lines (List.concat (List.map (fun t => t ++ nl) texts)) = [].
Proof.
  induction 1 as [|t texts Ht _ IH]; [reflexivity|].
  simpl. rewrite <- app_assoc.
  change (nl ++ List.concat (List.map (fun t => t ++ nl) texts))
    with (chr_nl :: List.concat (List.map (fun t => t ++ nl) texts)).
  now rewrite banner_lines_app_nl, Ht, IH.
Qed.

Section BannerFacts.
Context {World image : Type}.
Variable convert_from_bytes : bytes -> World -> (pyerr + list image) * World.
Variable Image_open : bytes -> World -> (pyerr + image) * World.
Variable image_to_string : image -> pystr -> World -> (pyerr + pystr) * World.

Local Abbreviation St := (state World image).
Local Abbreviation run_extract :=
  (extract convert_from_bytes Image_open image_to_string).
Local Abbreviation run_files :=
  (process_files convert_from_bytes Image_open image_to_string).

(** What the [try] body adds for a file is made of the texts OCR returned
    in its calls: it holds a banner line only if one of them does. *)
Lemma extract_text (file : UploadFile) (all_text : pystr) (n : N)
    (st st' : St) (r : pystr * N) :
  run_extract file all_text n st = (inr r, st') ->
  exists t evs,
    r = (all_text ++ t ++ footer n, (n + 1)%N)
    /\ log st' = log st ++ evs
    /\ (Forall (fun x => banner_lines x = []) (ocr_texts evs) ->
        banner_lines t = []).
Proof.
  intros H.
  destruct (opt_eqb (content_type file) (lit "application/pdf")) eqn:Hpdf.
  - destruct (extract_pdf _ _ _ _ _ _ _ _ _ Hpdf H)
      as [images [texts [Hlen [Hlog ->]]]].
    eexists. eexists. split; [reflexivity|]. split; [exact Hlog|].
    cbn [ocr_texts flat_map app].
    change (flat_map _ (page_calls images texts))
      with (ocr_texts (page_calls images texts)).
    rewrite (ocr_texts_page_calls _ _ _ Hlen). apply banner_lines_pages.
  - unfold extract in H. rewrite Hpdf in H.
    apply bind_inv in H as [a [s1 [H1 H]]]. injection H as <- <-.
    apply ocr_image_ok in H1 as [img [t1 [t2 [t3 [Hlog ->]]]]].
    exists (max_len t1 [t2; t3] ++ nl). eexists.
    split; [now rewrite <- !app_assoc|]. split; [exact Hlog|].
    cbn [ocr_texts flat_map app]. intros Hall.
    change (max_len t1 [t2; t3] ++ nl) with (max_len t1 [t2; t3] ++ chr_nl :: []).
    rewrite banner_lines_app_nl, app_nil_r.
    rewrite Forall_forall in Hall. apply Hall.
    apply (max_len_three t1 t2 t3).
Qed.

(** The loop that goes through: the text, the texts of the files and the
    calls that gave them. *)
Lemma process_files_texts (files : list UploadFile) (all_text : pystr)
    (n : N) (st st' : St) (r : pystr * N) :
  run_files files all_text n st = (inr r, st') ->
  exists texts evs,
    Forall2 (extracted_as convert_from_bytes Image_open image_to_string)
      files texts
    /\ fst r = all_text ++ framed n texts
    /\ log st' = log st ++ evs
    /\ (Forall (fun x => banner_lines x = []) (ocr_texts evs) ->
        Forall (fun t => banner_lines t = []) texts).
Proof.
  revert all_text n st. induction files as [|f files IH];
    intros all_text n st H.
  - injection H as <- <-. exists [], []. simpl. rewrite !app_nil_r.
    repeat split; constructor.
  - rewrite process_files_cons in H.
    destruct (negb (opt_in (content_type f) allowed_types)); [discriminate|].
    destruct (run_extract f (all_text ++ header n) n st) as [[e|r1] st1] eqn:E;
      [discriminate|].
    destruct (extract_text _ _ _ _ _ _ E) as [t [evs [-> [Hlog1 Ht]]]].
    simpl fst in H. simpl snd in H.
    apply IH in H as [texts [evs' [Hall [Hfst [Hlog Hts]]]]].
    exists (t :: texts), (evs ++ evs'). split; [|split; [|split]].
    + constructor; [|exact Hall].
      exists (all_text ++ header n), n, st, st1. exact E.
    + rewrite Hfst, framed_cons, <- !app_assoc. reflexivity.
    + rewrite Hlog, Hlog1, <- app_assoc. reflexivity.
    + rewrite ocr_texts_app. intros Hf. apply Forall_app in Hf as [Hf1 Hf2].
      constructor; [apply Ht, Hf1 | apply Hts, Hf2].
Qed.
End BannerFacts.

Section BillBanners.
Context {World image : Type}.
Variable convert_from_bytes : bytes -> World -> (pyerr + list image) * World.
Variable Image_open : bytes -> World -> (pyerr + image) * World.
Variable image_to_string : image -> pystr -> World -> (pyerr + pystr) * World.
Variable generate_content : pystr -> World -> (pyerr + pystr) * World.
Variable json_loads : pystr -> pyerr + json.
Variable isdecimal : N -> bool.
Variable prompt_template : pystr.

Local Abbreviation St := (state World image).
Local Abbreviation run_files :=
  (process_files convert_from_bytes Image_open image_to_string).
Local Abbreviation run_model :=
  (ask_model (image:=image) generate_content json_loads).
Local Abbreviation handler :=
  (process_images convert_from_bytes Image_open image_to_string
     generate_content json_loads isdecimal prompt_template).
Local Abbreviation prompt_of := (prompt_of isdecimal prompt_template).

(** C4.  When all the files of a request are extracted, the text handed
    to [clean_ocr_text] is one block per file, in the order of the
    upload: the START banner of the bill number, the text extracted from
    the file, the END banner of the same number; the counter has moved
    once per file.  The lines of that text that hold [BILL NUMBER ] are,
    in this order, the START line of each block, the lines of the file's
    text that hold it, and the END line of the block.  So when no text
    that OCR returned in the calls of the request has such a line, the
    banner lines of the text are exactly START 1, END 1, START 2, END 2,
    up to START N, END N for the N files, in this order and all
    different. *)
Theorem process_files_banners (files : list UploadFile) (st st' : St)
    (r : pystr * N) :
  run_files files [] 1%N st = (inr r, st') ->
  exists texts evs,
    Forall2 (extracted_as convert_from_bytes Image_open image_to_string)
      files texts
    /\ fst r = framed 1 texts
    /\ snd r = (1 + N.of_nat (List.length files))%N
    /\ (files <> [] ->
        handler files st = run_model (prompt_of (framed 1 texts)) st')
    /\ log st' = log st ++ evs
    /\ banner_lines (fst r) = framed_banners 1 texts
    /\ (Forall (fun t => banner_lines t = []) (ocr_texts evs) ->
        banner_lines (fst r) = bill_banners 1 (List.length files)
        /\ NoDup (banner_lines (fst r))
        /\ List.length (banner_lines (fst r)) = 2 * List.length files).
Proof.
  intros H.
  destruct (process_files_ok _ _ _ _ _ _ _ _ _ H) as [_ [_ [_ Hsnd]]].
  destruct (process_files_texts _ _ _ _ _ _ _ _ _ H)
    as [texts [evs [Hall [Hfst [Hlog Hts]]]]].
  simpl in Hfst.
  assert (banner_lines (fst r) = framed_banners 1 texts) as Hb
    by (rewrite Hfst; apply banner_lines_framed).
  exists texts, evs. split; [exact Hall|]. split; [exact Hfst|].
  split; [exact Hsnd|]. split; [|split; [exact Hlog|split; [exact Hb|]]].
  - intros Hne. rewrite <- Hfst. now apply process_images_asks.
  - intros Hplain. rewrite Hb, (framed_banners_plain _ _ (Hts Hplain)).
    rewrite (Forall2_length Hall). split; [reflexivity|].
    split; [apply bill_banners_NoDup|].
    generalize 1%N. induction (List.length texts) as [|k IH]; intros n;
      [reflexivity|].
    simpl. rewrite IH. lia.
Qed.
End BillBanners.

Lemma process_files_banners_witness :
  exists r st',
    Demo.files_loop Demo.two_bills [] 1%N (tt, []) = (inr r, st')
    /\ snd r = 3%N
    /\ Forall (fun t => banner_lines t = []) (ocr_texts (log st'))
    /\ banner_lines (fst r)
       = [start_banner 1; end_banner 1; start_banner 2; end_banner 2]
    /\ NoDup (banner_lines (fst r)).
Proof.
  eexists. eexists. split; [vm_compute; reflexivity|].
  destruct (process_files_banners Demo.convert_from_bytes Demo.Image_open
              Demo.image_to_string (Demo.generate_content Demo.fenced_answer)
              Demo.json_loads ascii_digit Demo.template
              Demo.two_bills (tt, []) _ _ eq_refl)
    as [texts [evs [_ [_ [Hs [_ [Hlog [_ Hb]]]]]]]].
  vm_compute in Hlog. subst evs.
  match goal with
  | |- _ /\ Forall ?P ?l /\ _ =>
      assert (Forall P l) as Hplain by repeat constructor
  end.
  destruct (Hb Hplain) as [H1 [H2 _]].
  split; [exact Hs|]. split; [exact Hplain|]. split; [exact H1 | exact H2].
Defined.

(** One PDF whose page reads as a START banner: the text of the one bill
    has two START banners, the second of them inside the block of the
    first. *)
Lemma banner_in_text_counterexample :
  exists r st',
    Demo.files_loop Demo.bill_in_bill [] 1%N (tt, []) = (inr r, st')
    /\ List.length Demo.bill_in_bill = 1
    /\ banner_lines (fst r) = [start_banner 1; start_banner 2; end_banner 1]
    /\ banner_lines (fst r) <> bill_banners 1 1.
Proof.
  eexists. eexists. split; [vm_compute; reflexivity|].
  split; [reflexivity|]. split; [vm_compute; reflexivity|].
  intros H. vm_compute in H. discriminate H.
Qed.
